(** * The Nest module container ([core/injector/container.ts])

    A shallow embedding of [NestContainer]: the registry of modules, the
    store of dynamic module metadata, the set of global modules, and the
    operations that register modules and wire them together.

    JavaScript objects that are shared by reference ([Module] instances sit
    in the registry, in the set of global modules and in the
    [relatedModules] of other modules at the same time) live in an explicit
    heap and are named by their address. A method is a function from the
    container before the call to a completion (normal or thrown) and the
    container after the call: what a method wrote before it threw stays
    written. *)

From stdpp Require Import base option list strings countable pretty.

(** ** JavaScript collections *)

(** [Map<K, V>]: keys are unique and iteration follows insertion order, so
    the map is an association list; [set] on a key that is present
    replaces the value where it stands. *)
Module JsMap.
Section JsMap.
Context {K V : Type} `{EqDecision K}.

Definition t := list (K * V).

Fixpoint get (k : K) (m : list (K * V)) : option V :=
  match m with
  | [] => None
  | (k', v) :: m' => if decide (k' = k) then Some v else get k m'
  end.

Definition has (k : K) (m : list (K * V)) : bool :=
  match get k m with Some _ => true | None => false end.

Fixpoint set (k : K) (v : V) (m : list (K * V)) : list (K * V) :=
  match m with
  | [] => [(k, v)]
  | (k', v') :: m' =>
      if decide (k' = k) then (k, v) :: m' else (k', v') :: set k v m'
  end.

Definition clear (m : list (K * V)) : list (K * V) := [].

Definition keys (m : list (K * V)) : list K := m.*1.
Definition values (m : list (K * V)) : list V := m.*2.

(** The representation invariant of a [Map]: no key occurs twice. *)
Definition wf (m : list (K * V)) : Prop := NoDup (keys m).

(** Number of entries stored under a key. *)
Definition count (k : K) (m : list (K * V)) : nat :=
  length (filter (λ e, e.1 = k) m).
End JsMap.
End JsMap.

(** [Set<A>]: membership by identity, iteration in insertion order; [add]
    of a member changes nothing. *)
Module JsSet.
Section JsSet.
Context {A : Type} `{EqDecision A}.

Definition has (x : A) (s : list A) : bool := bool_decide (x ∈ s).

Definition add (x : A) (s : list A) : list A :=
  if decide (x ∈ s) then s else s ++ [x].
End JsSet.
End JsSet.

(** ** Module references *)

(** A class ([Type<any>]), named by its identifier. *)
Definition TypeRef := string.

(** The fields of a dynamic module next to its [module] field
    ([Partial<DynamicModule>] once [extractMetadata] has taken [module]
    out). An absent field is [None]. *)
Record DynamicMetadata (R : Type) := {
  modules : option (list R);
  imports : option (list R);
  controllers : option (list R);
  providers : option (list R);
  exports : option (list R);
  components : option (list R);
}.
Arguments modules {R} _.
Arguments imports {R} _.
Arguments controllers {R} _.
Arguments providers {R} _.
Arguments exports {R} _.
Arguments components {R} _.

(** What [addModule] is handed, and what the array fields of a dynamic
    module hold: nothing ([undefined] or [null]), a class, or a
    [DynamicModule] object, whose [module] field is a class. *)
#[local] Unset Elimination Schemes.
Inductive Metatype :=
| Absent
| StaticType (type : TypeRef)
| DynamicModule (module : TypeRef) (dynamicMetadata : DynamicMetadata Metatype).
#[local] Set Elimination Schemes.

(** The keys of [DynamicModule] ([keyof DynamicModule]). *)
Inductive MetadataKey :=
| KModule | KModules | KImports | KControllers | KProviders | KExports
| KComponents.

(** [metadata[metadataKey]] on stored metadata; the [module] field was
    removed before the metadata was stored. *)
Definition field (metadataKey : MetadataKey) (metadata : DynamicMetadata Metatype)
  : option (list Metatype) :=
  match metadataKey with
  | KModule => None
  | KModules => modules metadata
  | KImports => imports metadata
  | KControllers => controllers metadata
  | KProviders => providers metadata
  | KExports => exports metadata
  | KComponents => components metadata
  end.

(** ** Module records *)

(** The address of a [Module] object in the heap. *)
Definition ModuleRef := nat.

Module ModuleRecord.
(** Modelled from the spec: the [Module] class ([./module]) is not among
    the sources. A Module Record holds its definition, its scope, the set
    of related modules, the map of components, and the sets of
    injectables, controllers (routes) and exported component identifiers. *)
Record t := {
  metatype : TypeRef;
  scope : list TypeRef;
  relatedModules : list ModuleRef;
  components : list (string * TypeRef);
  injectables : list TypeRef;
  routes : list TypeRef;
  exports : list string;
}.

(** Modelled from the spec: [new Module(type, scope, container)] makes a
    record for (type, scope) that owns nothing yet. *)
Definition new (type : TypeRef) (sc : list TypeRef) : t :=
  {| metatype := type; scope := sc; relatedModules := [];
     components := []; injectables := []; routes := []; exports := [] |}.

(** Modelled from the spec: [addRelatedModule(other)] adds an edge and
    does nothing when [other] is undefined. *)
Definition addRelatedModule (related : option ModuleRef) (m : t) : t :=
  match related with
  | None => m
  | Some r =>
      {| metatype := metatype m; scope := scope m;
         relatedModules := JsSet.add r (relatedModules m);
         components := components m; injectables := injectables m;
         routes := routes m; exports := exports m |}
  end.

(** Modelled from the spec: [addComponent(componentRef)] registers the
    provider under an identifier derived from it and returns that
    identifier; registering it again changes nothing. *)
Definition addComponent (component : TypeRef) (m : t) : string * t :=
  (component,
   {| metatype := metatype m; scope := scope m;
      relatedModules := relatedModules m;
      components := JsMap.set component component (components m);
      injectables := injectables m; routes := routes m;
      exports := exports m |}).

(** Modelled from the spec: [addInjectable(injectableRef)] adds to the
    set of injectables. *)
Definition addInjectable (injectable : TypeRef) (m : t) : t :=
  {| metatype := metatype m; scope := scope m;
     relatedModules := relatedModules m; components := components m;
     injectables := JsSet.add injectable (injectables m);
     routes := routes m; exports := exports m |}.

(** Modelled from the spec: [addExportedComponent(componentRef)] marks
    the component as visible to importers. *)
Definition addExportedComponent (exportedComponent : TypeRef) (m : t) : t :=
  {| metatype := metatype m; scope := scope m;
     relatedModules := relatedModules m; components := components m;
     injectables := injectables m; routes := routes m;
     exports := JsSet.add exportedComponent (exports m) |}.

(** Modelled from the spec: [addRoute(controllerRef)] adds to the set of
    controllers. *)
Definition addRoute (controller : TypeRef) (m : t) : t :=
  {| metatype := metatype m; scope := scope m;
     relatedModules := relatedModules m; components := components m;
     injectables := injectables m;
     routes := JsSet.add controller (routes m); exports := exports m |}.
End ModuleRecord.

(** ** The container *)

Record NestContainer := {
  heap : list ModuleRecord.t;
  globalModules : list ModuleRef;
  container_modules : list (string * ModuleRef);
  dynamicModulesMetadata : list (string * DynamicMetadata Metatype);
}.

(** [new NestContainer()]. *)
Definition empty_container : NestContainer :=
  {| heap := []; globalModules := []; container_modules := [];
     dynamicModulesMetadata := [] |}.

(** ** Completions *)

Inductive Exception :=
| InvalidModuleException (scope : list TypeRef)
| UnknownModuleException
| TypeError.

Inductive Completion (A : Type) :=
| Normal (a : A)
| Throw (e : Exception).
Arguments Normal {A} _.
Arguments Throw {A} _.

(** A method: from the container before the call to how the call ended
    and the container after it. *)
Definition Method (A : Type) : Type := NestContainer → Completion A * NestContainer.

Definition ret {A} (a : A) : Method A := λ c, (Normal a, c).
Definition throw {A} (e : Exception) : Method A := λ c, (Throw e, c).
Definition bind {A B} (m : Method A) (k : A → Method B) : Method B :=
  λ c, match m c with
       | (Normal a, c') => k a c'
       | (Throw e, c') => (Throw e, c')
       end.
Definition update (f : NestContainer → NestContainer) : Method () :=
  λ c, (Normal (), f c).
Definition gets {A} (f : NestContainer → A) : Method A :=
  λ c, (Normal (f c), c).

Notation "'let*' x ':=' m 'in' k" := (bind m (λ x, k))
  (at level 10, x pattern, m at level 100, k at level 200).

(** [array.map(f)] for its effects, first to last; a throw ends it. *)
Definition forEach {A} (f : A → Method ()) : list A → Method () :=
  fix go l :=
    match l with
    | [] => ret ()
    | x :: l' => let* _ := f x in go l'
    end.

(** Field updates of the container. *)
Definition with_heap (f : list ModuleRecord.t → list ModuleRecord.t)
  (c : NestContainer) : NestContainer :=
  {| heap := f (heap c); globalModules := globalModules c;
     container_modules := container_modules c;
     dynamicModulesMetadata := dynamicModulesMetadata c |}.

Definition with_globalModules (f : list ModuleRef → list ModuleRef)
  (c : NestContainer) : NestContainer :=
  {| heap := heap c; globalModules := f (globalModules c);
     container_modules := container_modules c;
     dynamicModulesMetadata := dynamicModulesMetadata c |}.

Definition with_modules
  (f : list (string * ModuleRef) → list (string * ModuleRef))
  (c : NestContainer) : NestContainer :=
  {| heap := heap c; globalModules := globalModules c;
     container_modules := f (container_modules c);
     dynamicModulesMetadata := dynamicModulesMetadata c |}.

Definition with_dynamicModulesMetadata
  (f : list (string * DynamicMetadata Metatype) →
       list (string * DynamicMetadata Metatype))
  (c : NestContainer) : NestContainer :=
  {| heap := heap c; globalModules := globalModules c;
     container_modules := container_modules c;
     dynamicModulesMetadata := f (dynamicModulesMetadata c) |}.

(** [new Module(type, scope, this)]: a fresh object at the next address. *)
Definition newModule (type : TypeRef) (scope : list TypeRef) : Method ModuleRef :=
  λ c, (Normal (length (heap c)),
        with_heap (λ h, h ++ [ModuleRecord.new type scope]) c).

(** The object behind what [modules.get(...)] returned; [None] is
    [undefined]. The addresses that the methods below put into the
    registry name objects; one that names none is treated like
    [undefined]. *)
Definition deref (module : option ModuleRef) (c : NestContainer)
  : option (ModuleRef * ModuleRecord.t) :=
  module ≫= λ r, (r,.) <$> heap c !! r.

(** [module.field]; reading a field of [undefined] is a [TypeError]. *)
Definition read {A} (module : option ModuleRef) (field : ModuleRecord.t → A)
  : Method A :=
  λ c, match deref module c with
       | Some (_, m) => (Normal (field m), c)
       | None => (Throw TypeError, c)
       end.

(** [module.method(...)]: the method runs on the object at that address
    and the object is written back. *)
Definition invoke {A} (module : option ModuleRef)
  (method : ModuleRecord.t → A * ModuleRecord.t) : Method A :=
  λ c, match deref module c with
       | Some (r, m) =>
           (Normal (method m).1, with_heap (λ h, <[r := (method m).2]> h) c)
       | None => (Throw TypeError, c)
       end.

(** A method of [Module] that returns nothing. *)
Definition void (f : ModuleRecord.t → ModuleRecord.t)
  : ModuleRecord.t → () * ModuleRecord.t := λ m, ((), f m).

(** ** Collaborators

    [ModuleTokenFactory] ([./module-token-factory]) and the metadata that
    decorators attach to a class are not among the sources. The container
    is verified against any token function and any flag. *)
Class Collaborators := {
  (** [moduleTokenFactory.create(type, scope, dynamicMetadata)] *)
  create : TypeRef → list TypeRef → option (DynamicMetadata Metatype) → string;
  (** [!!Reflect.getMetadata(GLOBAL_MODULE_METADATA, metatype)] *)
  reflectGlobal : TypeRef → bool;
}.

Section NestContainer.
Context {env : Collaborators}.

(** [!!module.module]; reading a field of [undefined] throws. *)
Definition isDynamicModule (module : Metatype) : Method bool :=
  match module with
  | Absent => throw TypeError
  | StaticType _ => ret false
  | DynamicModule _ _ => ret true
  end.

(** [{ type: metatype }] for a class and
    [{ module: type, ...dynamicMetadata } = metatype] for a dynamic module;
    [isDynamicModule] tells them apart, so the last case does not occur. *)
Definition extractMetadata (metatype : Metatype)
  : Method (TypeRef * option (DynamicMetadata Metatype)) :=
  let* dynamic := isDynamicModule metatype in
  match metatype, dynamic with
  | StaticType type, false => ret (type, None)
  | DynamicModule type dynamicMetadata, true =>
      ret (type, Some dynamicMetadata)
  | _, _ => throw TypeError
  end.

Definition isGlobalModule (metatype : TypeRef) : bool :=
  reflectGlobal metatype.

Definition addGlobalModule (module : ModuleRef) : Method () :=
  update (with_globalModules (JsSet.add module)).

(** The three methods below call each other; [addModule] is their
    fixpoint, and the other two take it as an argument. *)
Definition addDynamicModules_
  (addModule : Metatype → list TypeRef → Method ())
  (modules : option (list Metatype)) (scope : list TypeRef) : Method () :=
  match modules with
  | None => ret ()
  | Some modules => forEach (λ module, addModule module scope) modules
  end.

Definition addDynamicMetadata_
  (addModule : Metatype → list TypeRef → Method ())
  (token : string)
  (dynamicModuleMetadata : option (DynamicMetadata Metatype))
  (scope : list TypeRef) : Method () :=
  match dynamicModuleMetadata with
  | None => ret ()
  | Some metadata =>
      let* _ := update (with_dynamicModulesMetadata (JsMap.set token metadata)) in
      let* _ := addDynamicModules_ addModule (modules metadata) scope in
      addDynamicModules_ addModule (imports metadata) scope
  end.

(** Lines 50 to 58 of [addModule], once the reference is known to be
    present and has been split into its type and its metadata. *)
Definition registerModule
  (addDynamicMetadata :
     string → option (DynamicMetadata Metatype) → list TypeRef → Method ())
  (type : TypeRef) (dynamicMetadata : option (DynamicMetadata Metatype))
  (scope : list TypeRef) : Method () :=
  let token := create type scope dynamicMetadata in
  let* registered := gets (λ c, JsMap.has token (container_modules c)) in
  if registered : bool then ret ()
  else
    let* module := newModule type scope in
    let* _ := update (with_modules (JsMap.set token module)) in
    let* _ := addDynamicMetadata token dynamicMetadata (scope ++ [type]) in
    if isGlobalModule type then addGlobalModule module else ret ().

Fixpoint addModule (metatype : Metatype) (scope : list TypeRef)
  {struct metatype} : Method () :=
  match metatype with
  | Absent => throw (InvalidModuleException scope)
  | StaticType type =>
      registerModule (addDynamicMetadata_ addModule) type None scope
  | DynamicModule type dynamicMetadata =>
      registerModule (addDynamicMetadata_ addModule) type
        (Some dynamicMetadata) scope
  end.

Definition addDynamicModules := addDynamicModules_ addModule.
Definition addDynamicMetadata := addDynamicMetadata_ addModule.

Definition addRelatedModule (relatedModule : Metatype) (token : string)
  : Method () :=
  let* registered := gets (λ c, JsMap.has token (container_modules c)) in
  if negb registered then ret ()
  else
    let* module := gets (λ c, JsMap.get token (container_modules c)) in
    let* parent := read module ModuleRecord.metatype in
    let* (type, dynamicMetadata) := extractMetadata relatedModule in
    let* scope := read module ModuleRecord.scope in
    let relatedModuleToken :=
      create type (scope ++ [parent]) dynamicMetadata in
    let* related :=
      gets (λ c, JsMap.get relatedModuleToken (container_modules c)) in
    invoke module (void (ModuleRecord.addRelatedModule related)).

(** [addComponent], [addInjectable], [addExportedComponent] and
    [addController] differ in the method of [Module] they call. *)
Definition onModule {A} (token : string)
  (method : ModuleRecord.t → A * ModuleRecord.t) : Method A :=
  let* registered := gets (λ c, JsMap.has token (container_modules c)) in
  if negb registered then throw UnknownModuleException
  else
    let* module := gets (λ c, JsMap.get token (container_modules c)) in
    invoke module method.

Definition addComponent (component : TypeRef) (token : string)
  : Method string :=
  onModule token (ModuleRecord.addComponent component).

Definition addInjectable (injectable : TypeRef) (token : string)
  : Method () :=
  onModule token (void (ModuleRecord.addInjectable injectable)).

Definition addExportedComponent (exportedComponent : TypeRef)
  (token : string) : Method () :=
  onModule token (void (ModuleRecord.addExportedComponent exportedComponent)).

Definition addController (controller : TypeRef) (token : string)
  : Method () :=
  onModule token (void (ModuleRecord.addRoute controller)).

Definition clear : Method () := update (with_modules JsMap.clear).

Definition bindGlobalModuleToModule (module globalModule : ModuleRef)
  : Method () :=
  if decide (module = globalModule) then ret ()
  else
    invoke (Some module)
      (void (ModuleRecord.addRelatedModule (Some globalModule))).

(** Neither loop changes the set or the map it runs over. *)
Definition bindGlobalsToRelatedModules (module : ModuleRef) : Method () :=
  let* globals := gets globalModules in
  forEach (λ globalModule, bindGlobalModuleToModule module globalModule)
    globals.

Definition bindGlobalScope : Method () :=
  let* modules := gets (λ c, JsMap.values (container_modules c)) in
  forEach bindGlobalsToRelatedModules modules.

Definition getDynamicMetadataByToken (token : string)
  (metadataKey : MetadataKey) : Method (list Metatype) :=
  let* metadata := gets (λ c, JsMap.get token (dynamicModulesMetadata c)) in
  match metadata with
  | Some metadata =>
      match field metadataKey metadata with
      | Some list => ret list
      | None => ret []
      end
  | None => ret []
  end.
End NestContainer.

(** ** Vocabulary of the properties *)

(** A method preserves [I] when the container after the call satisfies
    [I] whenever the container before it does, however the call ends. *)
Definition preserves {A} (I : NestContainer → Prop) (m : Method A) : Prop :=
  ∀ c, I c → I (m c).2.

(** A reference that is present, split into its type and its metadata the
    way [extractMetadata] splits it. *)
Definition parts (metatype : Metatype)
  : option (TypeRef * option (DynamicMetadata Metatype)) :=
  match metatype with
  | Absent => None
  | StaticType type => Some (type, None)
  | DynamicModule type dynamicMetadata => Some (type, Some dynamicMetadata)
  end.

(** [undefined] occurs as the reference or in a list [addModule] descends
    into. *)
Fixpoint has_absent (metatype : Metatype) : bool :=
  match metatype with
  | Absent => true
  | StaticType _ => false
  | DynamicModule _ metadata =>
      match modules metadata with
      | Some l => existsb has_absent l
      | None => false
      end
      || match imports metadata with
         | Some l => existsb has_absent l
         | None => false
         end
  end.

(** The references listed in the [modules] and [imports] fields. *)
Definition nested (metadata : DynamicMetadata Metatype) : list Metatype :=
  default [] (modules metadata) ++ default [] (imports metadata).

(** A record without its related modules. *)
Definition unrelated (m : ModuleRecord.t) :=
  (ModuleRecord.metatype m, ModuleRecord.scope m, ModuleRecord.components m,
   ModuleRecord.injectables m, ModuleRecord.routes m, ModuleRecord.exports m).

(** From [c] to [c'] nothing changed but the related modules of the
    modules, and module [r] is now related to [y] exactly when it was
    before or [edge r y] holds. *)
Definition grows (edge : ModuleRef → ModuleRef → Prop)
  (c c' : NestContainer) : Prop :=
  container_modules c' = container_modules c ∧
  globalModules c' = globalModules c ∧
  dynamicModulesMetadata c' = dynamicModulesMetadata c ∧
  length (heap c') = length (heap c) ∧
  ∀ r m', heap c' !! r = Some m' →
    ∃ m, heap c !! r = Some m ∧ unrelated m' = unrelated m ∧
      ∀ y, y ∈ ModuleRecord.relatedModules m' ↔
           y ∈ ModuleRecord.relatedModules m ∨ edge r y.

(** Every address in the registry names an object. *)
Definition registry_valid (c : NestContainer) : Prop :=
  ∀ token r, (token, r) ∈ container_modules c → is_Some (heap c !! r).

(** No module is related to itself. *)
Definition no_self_relation (c : NestContainer) : Prop :=
  ∀ r m, heap c !! r = Some m → r ∉ ModuleRecord.relatedModules m.

Section vocabulary.
Context {env : Collaborators}.

(** The token [addModule] computes for a reference in a scope. *)
Definition tokenOf (metatype : Metatype) (scope : list TypeRef)
  : option string :=
  (λ p, create p.1 scope p.2) <$> parts metatype.

(** The container once lines 54, 55 and 88 have run: the module has its
    record at the next address and its entry in the registry, and its
    metadata, if any, is stored. *)
Definition registered (type : TypeRef)
  (dynamicMetadata : option (DynamicMetadata Metatype))
  (scope : list TypeRef) (c : NestContainer) : NestContainer :=
  let token := create type scope dynamicMetadata in
  let c' :=
    with_modules (JsMap.set token (length (heap c)))
      (with_heap (λ h, h ++ [ModuleRecord.new type scope]) c) in
  match dynamicMetadata with
  | Some metadata =>
      with_dynamicModulesMetadata (JsMap.set token metadata) c'
  | None => c'
  end.

(** Lines 91 and 92: the registration of the nested modules. *)
Definition addNested (dynamicMetadata : option (DynamicMetadata Metatype))
  (scope : list TypeRef) : Method () :=
  match dynamicMetadata with
  | None => ret ()
  | Some metadata =>
      let* _ := addDynamicModules (modules metadata) scope in
      addDynamicModules (imports metadata) scope
  end.

(** Modelled from the spec: the Token Factory is not among the sources;
    the spec has a token "uniquely and deterministically derived from
    (type identifier, scope, dynamic configuration)". Of the uniqueness
    the properties below use this much: equal tokens come from the same
    type in the same scope. *)
Definition token_unique : Prop :=
  ∀ type scope dm type' scope' dm',
    create type scope dm = create type' scope' dm' →
    type = type' ∧ scope = scope'.

(** The registry and the heap agree: keys and addresses are not repeated,
    and the record behind an entry carries the type and the scope its
    token was computed from. *)
Record registry_consistent (c : NestContainer) : Prop := {
  consistent_keys : JsMap.wf (container_modules c);
  consistent_values : NoDup (JsMap.values (container_modules c));
  consistent_records : ∀ token r, (token, r) ∈ container_modules c →
    ∃ m, heap c !! r = Some m ∧
      ∃ dm, token =
        create (ModuleRecord.metatype m) (ModuleRecord.scope m) dm;
}.

(** What every container a client can bring about satisfies. *)
Definition container_inv (c : NestContainer) : Prop :=
  registry_consistent c ∧ no_self_relation c.

(** The calls a client can make on a container. A [Module] argument is
    the address of the object. [replace], which hands every record to
    [Module.replace], and the accessors are left out. *)
Inductive Call :=
| AddModule (metatype : Metatype) (scope : list TypeRef)
| AddDynamicMetadata (token : string)
    (dynamicModuleMetadata : option (DynamicMetadata Metatype))
    (scope : list TypeRef)
| AddDynamicModules (modules : option (list Metatype)) (scope : list TypeRef)
| AddGlobalModule (module : ModuleRef)
| AddRelatedModule (relatedModule : Metatype) (token : string)
| AddComponent (component : TypeRef) (token : string)
| AddInjectable (injectable : TypeRef) (token : string)
| AddExportedComponent (exportedComponent : TypeRef) (token : string)
| AddController (controller : TypeRef) (token : string)
| Clear
| BindGlobalScope
| BindGlobalsToRelatedModules (module : ModuleRef)
| BindGlobalModuleToModule (module globalModule : ModuleRef).

(** The container after a call, however the call ended. *)
Definition after (call : Call) (c : NestContainer) : NestContainer :=
  match call with
  | AddModule metatype scope => (addModule metatype scope c).2
  | AddDynamicMetadata token dm scope => (addDynamicMetadata token dm scope c).2
  | AddDynamicModules modules scope => (addDynamicModules modules scope c).2
  | AddGlobalModule module => (addGlobalModule module c).2
  | AddRelatedModule relatedModule token =>
      (addRelatedModule relatedModule token c).2
  | AddComponent component token => (addComponent component token c).2
  | AddInjectable injectable token => (addInjectable injectable token c).2
  | AddExportedComponent exportedComponent token =>
      (addExportedComponent exportedComponent token c).2
  | AddController controller token => (addController controller token c).2
  | Clear => (clear c).2
  | BindGlobalScope => (bindGlobalScope c).2
  | BindGlobalsToRelatedModules module =>
      (bindGlobalsToRelatedModules module c).2
  | BindGlobalModuleToModule module globalModule =>
      (bindGlobalModuleToModule module globalModule c).2
  end.

(** The containers a client can bring about, starting from a new one. *)
Inductive reachable : NestContainer → Prop :=
| reachable_new : reachable empty_container
| reachable_call call c : reachable c → reachable (after call c).
End vocabulary.

(** ** Induction over module references

    A dynamic module holds lists of references; the induction hypothesis
    covers the lists that [addModule] descends into. *)
Section Metatype_nested_ind.
Variable P : Metatype → Prop.
Hypothesis HAbsent : P Absent.
Hypothesis HStatic : ∀ type, P (StaticType type).
Hypothesis HDynamic : ∀ type metadata,
  Forall P (default [] (modules metadata)) →
  Forall P (default [] (imports metadata)) →
  P (DynamicModule type metadata).

Fixpoint Metatype_nested_ind (m : Metatype) : P m :=
  match m with
  | Absent => HAbsent
  | StaticType type => HStatic type
  | DynamicModule type metadata =>
      let all := fix all (l : list Metatype) : Forall P l :=
        match l with
        | [] => Forall_nil_2 P
        | x :: l' => Forall_cons_2 P x l' (Metatype_nested_ind x) (all l')
        end in
      HDynamic type metadata
        (match modules metadata as o return Forall P (default [] o) with
         | Some l => all l
         | None => Forall_nil_2 P
         end)
        (match imports metadata as o return Forall P (default [] o) with
         | Some l => all l
         | None => Forall_nil_2 P
         end)
  end.
End Metatype_nested_ind.

(** ** Sample collaborators

    A token function that numbers the triple of type, scope and presence
    of metadata, and a flag that holds of one class. *)
Definition sample : Collaborators :=
  {| create type scope dm :=
       pretty (encode (type, scope, bool_decide (is_Some dm)));
     reflectGlobal type := bool_decide (type = "GlobalModule") |}.

(** [{ module: DynModule, modules: [OtherModule], imports: [GlobalModule] }] *)
Definition sample_metadata : DynamicMetadata Metatype :=
  {| modules := Some [StaticType "OtherModule"];
     imports := Some [StaticType "GlobalModule"]; controllers := None;
     providers := None; exports := None; components := None |}.

Definition sample_dynamic : Metatype :=
  DynamicModule "DynModule" sample_metadata.

(** The container after [addModule(sample_dynamic, [])] on a new one:
    [DynModule] at address 0, [OtherModule] at 1 and [GlobalModule], which
    is global, at 2. *)
Definition sample_container : NestContainer :=
  (addModule (env:=sample) sample_dynamic [] empty_container).2.

Definition sample_token : string :=
  create (Collaborators:=sample) "DynModule" [] (Some sample_metadata).

(** [{ module: DynModule, imports: [OtherModule, undefined] }] *)
Definition sample_broken : Metatype :=
  DynamicModule "DynModule"
    {| modules := None; imports := Some [StaticType "OtherModule"; Absent];
       controllers := None; providers := None; exports := None;
       components := None |}.

(** ** Vocabulary of the further properties *)

(** Every token with stored metadata is in the registry. *)
Definition metadata_registered (c : NestContainer) : Prop :=
  ∀ token, JsMap.has token (dynamicModulesMetadata c) = true →
           JsMap.has token (container_modules c) = true.

(** Every global module is a module whose type carries the global flag. *)
Definition globals_flagged {env : Collaborators} (c : NestContainer) : Prop :=
  ∀ r, r ∈ globalModules c →
    ∃ m, heap c !! r = Some m ∧
         isGlobalModule (ModuleRecord.metatype m) = true.

(** The scopes in which [addModule], started on a reference in a scope,
    can meet [undefined]. *)
Fixpoint absent_scopes (metatype : Metatype) (scope : list TypeRef)
  : list (list TypeRef) :=
  match metatype with
  | Absent => [scope]
  | StaticType _ => []
  | DynamicModule type metadata =>
      match modules metadata with
      | Some l => flat_map (λ x, absent_scopes x (scope ++ [type])) l
      | None => []
      end
      ++ match imports metadata with
         | Some l => flat_map (λ x, absent_scopes x (scope ++ [type])) l
         | None => []
         end
  end.

(** [{ imports: [undefined] }] *)
Definition dynamicMetadata_broken : DynamicMetadata Metatype :=
  {| modules := None; imports := Some [Absent]; controllers := None;
     providers := None; exports := None; components := None |}.

(** [{ module: GlobalModule, imports: [undefined] }] *)
Definition sample_global_broken : Metatype :=
  DynamicModule "GlobalModule" dynamicMetadata_broken.

(** * Properties *)

(** ** Maps and sets *)

Section JsMap_facts.
Context {K V : Type} `{EqDecision K}.
Implicit Types (k : K) (v : V) (m : list (K * V)).

Lemma JsMap_get_elem k v m : JsMap.get k m = Some v → (k, v) ∈ m.
Proof.
  induction m as [|[k' v'] m IH]; simpl; [done|].
  destruct (decide (k' = k)) as [->|Hne].
  - intros [= ->]. apply list_elem_of_here.
  - intros Hget. apply list_elem_of_further, IH, Hget.
Qed.

Lemma JsMap_get_None k m : JsMap.get k m = None ↔ k ∉ JsMap.keys m.
Proof.
  unfold JsMap.keys. induction m as [|[k' v'] m IH]; simpl.
  - split; [intros _; apply not_elem_of_nil|done].
  - rewrite not_elem_of_cons. destruct (decide (k' = k)) as [->|Hne].
    + split; [done|]. intros [Hk _]. done.
    + rewrite IH. split; [intros Hk; split; [congruence|done]|tauto].
Qed.

Lemma JsMap_has_false k m : JsMap.has k m = false ↔ k ∉ JsMap.keys m.
Proof.
  rewrite <- JsMap_get_None. unfold JsMap.has.
  destruct (JsMap.get k m); split; congruence.
Qed.

Lemma JsMap_has_true k m : JsMap.has k m = true ↔ is_Some (JsMap.get k m).
Proof.
  unfold JsMap.has. destruct (JsMap.get k m) as [v|].
  - split; [intros _; by exists v|done].
  - split; [done|]. intros [? [=]].
Qed.

Lemma JsMap_has_elem k m : JsMap.has k m = true ↔ k ∈ JsMap.keys m.
Proof.
  destruct (JsMap.has k m) eqn:Hhas.
  - split; [intros _|done].
    destruct (decide (k ∈ JsMap.keys m)) as [|Hk]; [done|].
    apply JsMap_has_false in Hk. congruence.
  - apply JsMap_has_false in Hhas. split; [done|tauto].
Qed.

(** [set] on a key that is not there appends the entry: insertion
    order. *)
Lemma JsMap_set_fresh k v m :
  JsMap.has k m = false → JsMap.set k v m = m ++ [(k, v)].
Proof.
  rewrite JsMap_has_false. unfold JsMap.keys.
  induction m as [|[k' v'] m IH]; simpl; [done|].
  rewrite not_elem_of_cons. intros [Hne Hk].
  destruct (decide (k' = k)); [congruence|]. by rewrite IH.
Qed.

Lemma JsMap_get_app_l k v m m' :
  JsMap.get k m = Some v → JsMap.get k (m ++ m') = Some v.
Proof.
  induction m as [|[k' v'] m IH]; simpl; [done|].
  destruct (decide (k' = k)); [done|apply IH].
Qed.

Lemma JsMap_get_app_r k m m' :
  JsMap.get k m = None → JsMap.get k (m ++ m') = JsMap.get k m'.
Proof.
  induction m as [|[k' v'] m IH]; simpl; [done|].
  destruct (decide (k' = k)); [done|apply IH].
Qed.

Lemma JsMap_has_app_l k m m' :
  JsMap.has k m = true → JsMap.has k (m ++ m') = true.
Proof.
  rewrite !JsMap_has_true. intros [v Hv]. exists v.
  by apply JsMap_get_app_l.
Qed.

Lemma JsMap_get_set_eq k v m : JsMap.get k (JsMap.set k v m) = Some v.
Proof.
  induction m as [|[k' v'] m IH]; simpl.
  - by rewrite decide_True.
  - destruct (decide (k' = k)) as [->|Hne]; simpl.
    + by rewrite decide_True.
    + by rewrite decide_False.
Qed.

Lemma JsMap_get_set_ne k k' v m :
  k ≠ k' → JsMap.get k' (JsMap.set k v m) = JsMap.get k' m.
Proof.
  intros Hne. induction m as [|[k0 v0] m IH]; simpl.
  - by rewrite decide_False.
  - destruct (decide (k0 = k)) as [->|Hne0]; simpl.
    + by rewrite !decide_False.
    + destruct (decide (k0 = k')); [done|apply IH].
Qed.

Lemma JsMap_count_absent k m : k ∉ JsMap.keys m → JsMap.count k m = 0.
Proof.
  unfold JsMap.keys, JsMap.count.
  induction m as [|[k' v'] m IH]; simpl; [done|].
  rewrite not_elem_of_cons. intros [Hne Hk].
  rewrite filter_cons_False; [by apply IH|]. simpl. congruence.
Qed.

Lemma JsMap_count_wf k m :
  JsMap.wf m → JsMap.has k m = true → JsMap.count k m = 1.
Proof.
  rewrite JsMap_has_elem. unfold JsMap.wf, JsMap.keys, JsMap.count.
  induction m as [|[k' v'] m IH]; simpl.
  - intros _ Hin. by apply elem_of_nil in Hin.
  - rewrite NoDup_cons. intros [Hk' Hnd] Hin.
    destruct (decide (k' = k)) as [->|Hne].
    + rewrite filter_cons_True; [|done]. simpl. f_equal.
      by apply (JsMap_count_absent k m).
    + rewrite filter_cons_False; [|simpl; congruence].
      apply IH; [done|]. apply elem_of_cons in Hin as [?|?]; [congruence|done].
Qed.

Lemma JsMap_wf_app_fresh k v m :
  JsMap.wf m → JsMap.has k m = false → JsMap.wf (m ++ [(k, v)]).
Proof.
  rewrite JsMap_has_false. unfold JsMap.wf, JsMap.keys.
  intros Hnd Hk. rewrite fmap_app. apply NoDup_app. split; [done|].
  split; [|apply NoDup_singleton].
  intros x Hx Hx'. apply list_elem_of_singleton in Hx'. simpl in Hx'. by subst.
Qed.
End JsMap_facts.

Section JsSet_facts.
Context {A : Type} `{EqDecision A}.
Implicit Types (x y : A) (s : list A).

Lemma JsSet_elem_of_add x y s : x ∈ JsSet.add y s ↔ x = y ∨ x ∈ s.
Proof.
  unfold JsSet.add. destruct (decide (y ∈ s)) as [Hy|Hy].
  - split; [tauto|]. intros [->|?]; done.
  - rewrite elem_of_app, list_elem_of_singleton. tauto.
Qed.

End JsSet_facts.

(** ** Reasoning about methods *)

Section preserves.
Context (I : NestContainer → Prop).

Lemma preserves_ret {A} (a : A) : preserves I (ret a).
Proof. by intros c Hc. Qed.

Lemma preserves_gets {A} (f : NestContainer → A) : preserves I (gets f).
Proof. by intros c Hc. Qed.

Lemma preserves_update f : (∀ c, I c → I (f c)) → preserves I (update f).
Proof. intros Hf c Hc. by apply Hf. Qed.

Lemma preserves_bind {A B} (m : Method A) (k : A → Method B) :
  preserves I m → (∀ a, preserves I (k a)) → preserves I (bind m k).
Proof.
  intros Hm Hk c Hc. unfold bind. specialize (Hm c Hc).
  destruct (m c) as [[a|e] c']; simpl in *; [by apply Hk|done].
Qed.

Lemma preserves_forEach {A} (f : A → Method ()) l :
  Forall (λ x, preserves I (f x)) l → preserves I (forEach f l).
Proof.
  induction 1 as [|x l Hx _ IH]; simpl.
  - apply preserves_ret.
  - apply preserves_bind; [done|]. intros _. apply IH.
Qed.
End preserves.

(** How a loop ends: normally when every step does, and with the throw
    of the first step that throws. *)
Lemma forEach_normal {A} (f : A → Method ()) l :
  (∀ x c, x ∈ l → (f x c).1 = Normal ()) →
  ∀ c, (forEach f l c).1 = Normal ().
Proof.
  induction l as [|x l IH]; intros Hf c; simpl; [done|].
  unfold bind. pose proof (Hf x c (list_elem_of_here _ _)) as Hx.
  destruct (f x c) as [[[]|e] c']; simpl in *; [|done].
  apply IH. intros y c'' Hy. apply Hf. by apply list_elem_of_further.
Qed.

Lemma forEach_throw {A} (f : A → Method ()) l c e c' :
  forEach f l c = (Throw e, c') →
  ∃ x c1 c2, x ∈ l ∧ f x c1 = (Throw e, c2).
Proof.
  revert c. induction l as [|x l IH]; intros c; simpl; [done|].
  unfold bind. destruct (f x c) as [[[]|e0] c0] eqn:Hx.
  - intros Hl. destruct (IH _ Hl) as (y & c1 & c2 & Hy & Hf).
    exists y, c1, c2. split; [by apply list_elem_of_further|done].
  - intros [= -> ->]. exists x, c, c'. split; [apply list_elem_of_here|done].
Qed.

(** A loop throws exactly when one of its steps does, after the steps
    before it have ended normally. *)
Lemma forEach_throw_iff {A} (f : A → Method ()) l c e c' :
  forEach f l c = (Throw e, c') ↔
  ∃ front x behind c1,
    l = front ++ x :: behind ∧
    forEach f front c = (Normal (), c1) ∧
    f x c1 = (Throw e, c').
Proof.
  split.
  - revert c. induction l as [|y l IH]; intros c; simpl; [done|].
    unfold bind. destruct (f y c) as [[[]|e0] c0] eqn:Hy.
    + intros Hl. destruct (IH _ Hl) as (front & x & behind & c1 & -> & Hf & Hx).
      exists (y :: front), x, behind, c1. split; [done|]. simpl.
      unfold bind. by rewrite Hy.
    + intros [= -> ->]. by exists [], y, l, c.
  - intros (front & x & behind & c1 & -> & Hfront & Hx). revert c Hfront.
    induction front as [|y front IH]; intros c; simpl.
    + intros [= ->]. unfold bind. by rewrite Hx.
    + unfold bind. destruct (f y c) as [[[]|e0] c0]; [apply IH|done].
Qed.

Lemma bind_throw {A B} (m : Method A) (k : A → Method B) c e c' :
  bind m k c = (Throw e, c') →
  m c = (Throw e, c') ∨ ∃ a c1, m c = (Normal a, c1) ∧ k a c1 = (Throw e, c').
Proof.
  unfold bind. destruct (m c) as [[a|e0] c0]; intros Hk.
  - right. by exists a, c0.
  - left. by injection Hk as -> ->.
Qed.

Lemma bind_normal {A B} (m : Method A) (k : A → Method B) c b c' :
  bind m k c = (Normal b, c') →
  ∃ a c1, m c = (Normal a, c1) ∧ k a c1 = (Normal b, c').
Proof.
  unfold bind. destruct (m c) as [[a|e0] c0]; intros Hk; [|done].
  by exists a, c0.
Qed.

Lemma forEach_app {A} (f : A → Method ()) l l' c :
  forEach f (l ++ l') c = (let* _ := forEach f l in forEach f l') c.
Proof.
  revert c. induction l as [|x l IH]; intros c; simpl.
  - done.
  - unfold bind. destruct (f x c) as [[[]|e] c1]; [apply IH|done].
Qed.

(** ** Registration *)

Section addModule_facts.
Context {env : Collaborators}.

(** [addModule] on a reference that is present, with the monad unfolded. *)
Lemma addModule_unfold metatype type dm scope c :
  parts metatype = Some (type, dm) →
  addModule metatype scope c =
    if JsMap.has (create type scope dm) (container_modules c)
    then (Normal (), c)
    else
      (let* _ := addNested dm (scope ++ [type]) in
       if isGlobalModule type then addGlobalModule (length (heap c))
       else ret ())
        (registered type dm scope c).
Proof.
  destruct metatype as [|type'|type' md]; intros [= <- <-]; simpl;
    unfold registerModule, registered, bind, gets, ret, newModule, update;
    simpl; by destruct (JsMap.has _ (container_modules c)).
Qed.

(** The fixpoint is the method of the source: the guard of line 46, then
    [extractMetadata], then lines 50 to 58. *)
Lemma addModule_source metatype scope c :
  addModule metatype scope c =
    match metatype with
    | Absent => throw (InvalidModuleException scope) c
    | _ =>
        (let* (type, dynamicMetadata) := extractMetadata metatype in
         registerModule addDynamicMetadata type dynamicMetadata scope) c
    end.
Proof. by destruct metatype. Qed.

Lemma addModule_absent scope c :
  addModule Absent scope c = (Throw (InvalidModuleException scope), c).
Proof. done. Qed.

Lemma addModule_registered metatype type dm scope c :
  parts metatype = Some (type, dm) →
  JsMap.has (create type scope dm) (container_modules c) = true →
  addModule metatype scope c = (Normal (), c).
Proof.
  intros Hparts Hhas. by rewrite (addModule_unfold _ _ _ _ _ Hparts), Hhas.
Qed.

Lemma addDynamicModules_unfold modules scope :
  addDynamicModules modules scope =
    forEach (λ module, addModule module scope) (default [] modules).
Proof. by destruct modules. Qed.

(** The scheme for invariants of registration: what holds before
    [addModule], is kept when a module is registered under a token that is
    not in the registry, and is kept when a module is added to the global
    modules, holds afterwards. *)
Section invariant.
Context (I : NestContainer → Prop).
Hypothesis I_registered : ∀ type dm scope c,
  I c → JsMap.has (create type scope dm) (container_modules c) = false →
  I (registered type dm scope c).
Hypothesis I_global : ∀ r c, I c → I (with_globalModules (JsSet.add r) c).

Lemma addGlobalModule_preserves r : preserves I (addGlobalModule r).
Proof. apply preserves_update. intros c. apply I_global. Qed.

Lemma addModule_preserves metatype :
  ∀ scope, preserves I (addModule metatype scope).
Proof.
  induction metatype as [|type|type md IHmodules IHimports]
    using Metatype_nested_ind; intros scope c Hc.
  - done.
  - rewrite (addModule_unfold _ type None) by done.
    destruct (JsMap.has _ _) eqn:Hhas; [done|].
    apply preserves_bind; [apply preserves_ret| |by apply I_registered].
    intros _. destruct (isGlobalModule type);
      [apply addGlobalModule_preserves|apply preserves_ret].
  - rewrite (addModule_unfold _ type (Some md)) by done.
    destruct (JsMap.has _ _) eqn:Hhas; [done|].
    apply preserves_bind; [| |by apply I_registered].
    + apply preserves_bind; [|intros _]; rewrite addDynamicModules_unfold;
        apply preserves_forEach; eapply Forall_impl; eauto.
    + intros _. destruct (isGlobalModule type);
        [apply addGlobalModule_preserves|apply preserves_ret].
Qed.

Lemma addDynamicModules_preserves modules scope :
  preserves I (addDynamicModules modules scope).
Proof.
  rewrite addDynamicModules_unfold. apply preserves_forEach.
  apply Forall_forall. intros x _. apply addModule_preserves.
Qed.

Lemma forEach_addModule_preserves l scope :
  preserves I (forEach (λ module, addModule module scope) l).
Proof.
  apply preserves_forEach, Forall_forall. intros x _.
  apply addModule_preserves.
Qed.

Lemma addNested_preserves dm scope : preserves I (addNested dm scope).
Proof.
  destruct dm as [md|]; [|apply preserves_ret].
  apply preserves_bind; [|intros _]; apply addDynamicModules_preserves.
Qed.
End invariant.

(** The fields of the container after a registration. *)
Lemma registered_heap type dm scope c :
  heap (registered type dm scope c) = heap c ++ [ModuleRecord.new type scope].
Proof. by destruct dm. Qed.

Lemma registered_modules type dm scope c :
  container_modules (registered type dm scope c) =
    JsMap.set (create type scope dm) (length (heap c)) (container_modules c).
Proof. by destruct dm. Qed.

Lemma registered_modules_fresh type dm scope c :
  JsMap.has (create type scope dm) (container_modules c) = false →
  container_modules (registered type dm scope c) =
    container_modules c ++ [(create type scope dm, length (heap c))].
Proof. intros Hhas. by rewrite registered_modules, JsMap_set_fresh. Qed.

Lemma registered_dynamicModulesMetadata type dm scope c :
  dynamicModulesMetadata (registered type dm scope c) =
    match dm with
    | Some metadata =>
        JsMap.set (create type scope dm) metadata (dynamicModulesMetadata c)
    | None => dynamicModulesMetadata c
    end.
Proof. by destruct dm. Qed.

(** Registration adds entries at the end of the registry and touches none
    that was there. *)
Lemma addModule_registry_prefix metatype scope c :
  container_modules c `prefix_of`
    container_modules (addModule metatype scope c).2.
Proof.
  apply (addModule_preserves
           (λ c', container_modules c `prefix_of` container_modules c'));
    [|done..].
  intros type dm scope' c' Hc' Hhas.
  rewrite registered_modules_fresh by done. by apply prefix_app_r.
Qed.

Lemma addNested_registry_prefix dm scope c :
  container_modules c `prefix_of` container_modules (addNested dm scope c).2.
Proof.
  apply (addNested_preserves
           (λ c', container_modules c `prefix_of` container_modules c'));
    [|done..].
  intros type dm' scope' c' Hc' Hhas.
  rewrite registered_modules_fresh by done. by apply prefix_app_r.
Qed.

Lemma has_prefix (token : string) (m m' : list (string * ModuleRef)) :
  m `prefix_of` m' → JsMap.has token m = true → JsMap.has token m' = true.
Proof. intros [l ->]. apply JsMap_has_app_l. Qed.

(** A reference that is present has its token in the registry after
    [addModule], also when the registration of a nested module threw. *)
Lemma addModule_has_token metatype type dm scope c :
  parts metatype = Some (type, dm) →
  JsMap.has (create type scope dm)
    (container_modules (addModule metatype scope c).2) = true.
Proof.
  intros Hparts. rewrite (addModule_unfold _ _ _ _ _ Hparts).
  destruct (JsMap.has _ (container_modules c)) eqn:Hhas; [done|].
  set (c1 := registered type dm scope c).
  assert (JsMap.has (create type scope dm) (container_modules c1) = true)
    as Hc1.
  { unfold c1. rewrite registered_modules. apply JsMap_has_true.
    rewrite JsMap_get_set_eq. by eexists. }
  unfold bind. pose proof (addNested_registry_prefix dm (scope ++ [type]) c1)
    as Hpre.
  destruct (addNested dm (scope ++ [type]) c1) as [[[]|e] c2]; simpl in *.
  - destruct (isGlobalModule type); simpl; by eapply has_prefix.
  - by eapply has_prefix.
Qed.

(** How [addModule] ends. *)
Lemma existsb_has_absent_false (l : list Metatype) x :
  existsb has_absent l = false → x ∈ l → has_absent x = false.
Proof.
  intros Hl Hx. destruct (has_absent x) eqn:Habs; [|done].
  rewrite <- Hl. symmetry. apply existsb_exists. exists x.
  by rewrite <- list_elem_of_In.
Qed.

Lemma has_absent_nested type md x :
  has_absent (DynamicModule type md) = false → x ∈ nested md →
  has_absent x = false.
Proof.
  simpl. intros [Hm Hi]%orb_false_elim Hx. unfold nested in Hx.
  apply elem_of_app in Hx as [Hx|Hx].
  - destruct (modules md) as [l|]; [|by apply elem_of_nil in Hx].
    by eapply existsb_has_absent_false.
  - destruct (imports md) as [l|]; [|by apply elem_of_nil in Hx].
    by eapply existsb_has_absent_false.
Qed.

Lemma addNested_unfold md scope c :
  addNested (Some md) scope c =
    forEach (λ module, addModule module scope) (nested md) c.
Proof.
  unfold nested. by rewrite forEach_app, <- !addDynamicModules_unfold.
Qed.

Lemma addGlobal_normal type r c :
  ((if isGlobalModule type then addGlobalModule r else ret ()) c).1 = Normal ().
Proof. by destruct (isGlobalModule type). Qed.

Lemma addModule_normal metatype :
  ∀ scope c, has_absent metatype = false →
    (addModule metatype scope c).1 = Normal ().
Proof.
  induction metatype as [|type|type md IHmodules IHimports]
    using Metatype_nested_ind; intros scope c Habs.
  - done.
  - rewrite (addModule_unfold _ type None) by done.
    destruct (JsMap.has _ _); [done|]. unfold bind. simpl.
    apply addGlobal_normal.
  - rewrite (addModule_unfold _ type (Some md)) by done.
    destruct (JsMap.has _ _); [done|]. unfold bind.
    set (c1 := registered _ _ _ _). rewrite addNested_unfold.
    assert ((forEach (λ module, addModule module (scope ++ [type]))
               (nested md) c1).1 = Normal ()) as Hn.
    { apply forEach_normal. intros x c' Hx.
      pose proof (has_absent_nested _ _ _ Habs Hx) as Hxabs.
      unfold nested in Hx. apply elem_of_app in Hx as [Hx|Hx];
        [eapply Forall_forall in IHmodules|eapply Forall_forall in IHimports];
        eauto. }
    destruct (forEach _ (nested md) c1) as [[[]|e] c2]; [|done].
    apply addGlobal_normal.
Qed.

Lemma absent_scopes_nested type md scope x scope' :
  x ∈ nested md → scope' ∈ absent_scopes x (scope ++ [type]) →
  scope' ∈ absent_scopes (DynamicModule type md) scope.
Proof.
  intros Hx Hscope. simpl. unfold nested in Hx. apply elem_of_app.
  apply elem_of_app in Hx as [Hx|Hx]; [left|right].
  - destruct (modules md) as [l|]; [|by apply elem_of_nil in Hx].
    apply list_elem_of_In, in_flat_map. exists x.
    by rewrite <- !list_elem_of_In.
  - destruct (imports md) as [l|]; [|by apply elem_of_nil in Hx].
    apply list_elem_of_In, in_flat_map. exists x.
    by rewrite <- !list_elem_of_In.
Qed.

Lemma addModule_throw_absent metatype :
  ∀ scope c e c', addModule metatype scope c = (Throw e, c') →
    ∃ scope', e = InvalidModuleException scope' ∧
              scope' ∈ absent_scopes metatype scope.
Proof.
  induction metatype as [|type|type md IHmodules IHimports]
    using Metatype_nested_ind; intros scope c e c'.
  - intros [= <- <-]. exists scope. split; [done|]. apply list_elem_of_here.
  - rewrite (addModule_unfold _ type None) by done.
    destruct (JsMap.has _ _); [done|]. unfold bind. simpl.
    by destruct (isGlobalModule type).
  - rewrite (addModule_unfold _ type (Some md)) by done.
    destruct (JsMap.has _ _); [done|].
    intros [Hthrow|(a & c1 & _ & Hthrow)]%bind_throw;
      [|by destruct (isGlobalModule type)].
    rewrite addNested_unfold in Hthrow.
    apply forEach_throw in Hthrow as (x & c1 & c2 & Hx & Hthrow).
    assert (∃ scope', e = InvalidModuleException scope' ∧
                      scope' ∈ absent_scopes x (scope ++ [type]))
      as (scope' & -> & Hscope).
    { pose proof Hx as Hx'. unfold nested in Hx'.
      apply elem_of_app in Hx' as [Hx'|Hx'];
        [eapply Forall_forall in IHmodules|eapply Forall_forall in IHimports];
        eauto. }
    exists scope'. split; [done|]. by eapply absent_scopes_nested.
Qed.

(** After a loop of registrations that ended normally, every reference of
    the list was present and has its token in the registry. *)
Lemma forEach_addModule_registered l scope : ∀ c c',
  forEach (λ module, addModule module scope) l c = (Normal (), c') →
  ∀ x, x ∈ l → ∃ type dm,
    parts x = Some (type, dm) ∧
    JsMap.has (create type scope dm) (container_modules c') = true.
Proof.
  induction l as [|y l IH]; intros c c' Hrun x Hx; simpl in *.
  { by apply elem_of_nil in Hx. }
  apply bind_normal in Hrun as ([] & c1 & Hy & Hl).
  apply elem_of_cons in Hx as [->|Hx]; [|by eapply IH].
  destruct (parts y) as [[type dm]|] eqn:Hparts; [|by destruct y].
  exists type, dm. split; [done|].
  pose proof (addModule_has_token y type dm scope c Hparts) as Hhas.
  rewrite Hy in Hhas. simpl in Hhas. eapply has_prefix; [|done].
  replace c' with (forEach (λ module, addModule module scope) l c1).2
    by by rewrite Hl.
  apply (forEach_addModule_preserves
           (λ c', container_modules c1 `prefix_of` container_modules c'));
    [|done..].
  intros type' dm' scope' c2 Hc2 Hfresh.
  rewrite registered_modules_fresh by done. by apply prefix_app_r.
Qed.

(** Registration keeps the registry and the heap in agreement. *)
Lemma registered_consistent type dm scope c :
  registry_consistent c →
  JsMap.has (create type scope dm) (container_modules c) = false →
  registry_consistent (registered type dm scope c).
Proof.
  intros [Hkeys Hvalues Hrecords] Hfresh. split.
  - rewrite registered_modules_fresh by done. by apply JsMap_wf_app_fresh.
  - rewrite registered_modules_fresh by done. unfold JsMap.values.
    rewrite fmap_app. apply NoDup_app. split; [done|].
    split; [|apply NoDup_singleton].
    intros r [[token r'] [-> Hin]]%list_elem_of_fmap Hr.
    apply list_elem_of_singleton in Hr. simpl in Hr. subst r'.
    destruct (Hrecords _ _ Hin) as (m & Hm & _).
    apply lookup_lt_Some in Hm. lia.
  - intros token r. rewrite registered_modules_fresh, registered_heap by done.
    intros [Hin|Hin]%elem_of_app.
    + destruct (Hrecords _ _ Hin) as (m & Hm & Hdm). exists m.
      split; [by apply lookup_app_l_Some|done].
    + apply list_elem_of_singleton in Hin as [= -> ->].
      exists (ModuleRecord.new type scope).
      split; [by apply list_lookup_middle|by exists dm].
Qed.

Lemma addModule_consistent metatype scope c :
  registry_consistent c → registry_consistent (addModule metatype scope c).2.
Proof.
  apply (addModule_preserves registry_consistent).
  - intros. by apply registered_consistent.
  - by intros r c' [].
Qed.

(** Registration relates no module to any other. *)
Lemma registered_no_self type dm scope c :
  no_self_relation c → no_self_relation (registered type dm scope c).
Proof.
  intros Hc r m. rewrite registered_heap.
  intros [Hm|[_ Hm]]%lookup_app_Some; [by eapply Hc|].
  destruct (r - length (heap c)); [|done]. injection Hm as <-.
  apply not_elem_of_nil.
Qed.

End addModule_facts.

(** ** Calls on one module *)

Lemma invoke_registered {A} r m (method : ModuleRecord.t → A * ModuleRecord.t) c :
  heap c !! r = Some m →
  invoke (Some r) method c =
    (Normal (method m).1, with_heap (λ h, <[r := (method m).2]> h) c).
Proof. intros Hm. unfold invoke, deref. simpl. by rewrite Hm. Qed.

Lemma read_registered {A} r m (field : ModuleRecord.t → A) c :
  heap c !! r = Some m → read (Some r) field c = (Normal (field m), c).
Proof. intros Hm. unfold read, deref. simpl. by rewrite Hm. Qed.

Lemma onModule_unknown {A} token (method : ModuleRecord.t → A * ModuleRecord.t) c :
  JsMap.has token (container_modules c) = false →
  onModule token method c = (Throw UnknownModuleException, c).
Proof. intros Hhas. unfold onModule, bind, gets. by rewrite Hhas. Qed.

Lemma onModule_registered {A} token r m
    (method : ModuleRecord.t → A * ModuleRecord.t) c :
  JsMap.get token (container_modules c) = Some r → heap c !! r = Some m →
  onModule token method c =
    (Normal (method m).1, with_heap (λ h, <[r := (method m).2]> h) c).
Proof.
  intros Hr Hm. unfold onModule, bind, gets.
  assert (JsMap.has token (container_modules c) = true) as ->.
  { apply JsMap_has_true. by eexists. }
  simpl. rewrite Hr. by apply invoke_registered.
Qed.

Section claims_on_modules.
Context {env : Collaborators}.

(** C5. Unknown tokens are rejected, and nothing changes. Each of
    [addComponent], [addInjectable], [addExportedComponent] and
    [addController] throws [UnknownModuleException] when the token is not
    in the registry, and leaves the whole container as it was; when the
    token is in the registry, the call is the call of the matching method
    on the record of that token: it returns what the method returns and
    writes back the record the method leaves, and touches nothing else. *)
Theorem unknown_token_rejected token c :
  (JsMap.has token (container_modules c) = false →
   ∀ x,
     addComponent x token c = (Throw UnknownModuleException, c) ∧
     addInjectable x token c = (Throw UnknownModuleException, c) ∧
     addExportedComponent x token c = (Throw UnknownModuleException, c) ∧
     addController x token c = (Throw UnknownModuleException, c)) ∧
  (∀ r m,
     JsMap.get token (container_modules c) = Some r → heap c !! r = Some m →
     ∀ x,
       addComponent x token c =
         (Normal (ModuleRecord.addComponent x m).1,
          with_heap (λ h, <[r := (ModuleRecord.addComponent x m).2]> h) c) ∧
       addInjectable x token c =
         (Normal (),
          with_heap (λ h, <[r := ModuleRecord.addInjectable x m]> h) c) ∧
       addExportedComponent x token c =
         (Normal (),
          with_heap (λ h, <[r := ModuleRecord.addExportedComponent x m]> h) c) ∧
       addController x token c =
         (Normal (), with_heap (λ h, <[r := ModuleRecord.addRoute x m]> h) c)).
Proof.
  split.
  - intros Hhas x. repeat split; by apply onModule_unknown.
  - intros r m Hr Hm x.
    repeat split; by apply (onModule_registered token r m).
Qed.

(** C6, as amended. [addRelatedModule] returns normally when the related
    reference is present and the addresses in the registry name objects.
    When the owner token is not in the registry it returns and changes
    nothing, whatever the reference. Otherwise the token of the related
    module is the one [addModule] computes for the reference in the scope
    of the owner extended by the type of the owner; what the registry
    holds under that token, if anything, is handed to [addRelatedModule]
    of the record of the owner, and when it holds nothing the container
    stays as it was. *)
Theorem addRelatedModule_tolerant relatedModule token c :
  (relatedModule ≠ Absent → registry_valid c →
   (addRelatedModule relatedModule token c).1 = Normal ()) ∧
  (JsMap.has token (container_modules c) = false →
   addRelatedModule relatedModule token c = (Normal (), c)) ∧
  (∀ owner m relatedModuleToken,
     JsMap.get token (container_modules c) = Some owner →
     heap c !! owner = Some m →
     tokenOf relatedModule
       (ModuleRecord.scope m ++ [ModuleRecord.metatype m]) =
       Some relatedModuleToken →
     let related := JsMap.get relatedModuleToken (container_modules c) in
     addRelatedModule relatedModule token c =
       (Normal (),
        with_heap
          (λ h, <[owner := ModuleRecord.addRelatedModule related m]> h) c) ∧
     (related = None → addRelatedModule relatedModule token c = (Normal (), c))).
Proof.
  assert (∀ owner m relatedModuleToken,
     JsMap.get token (container_modules c) = Some owner →
     heap c !! owner = Some m →
     tokenOf relatedModule
       (ModuleRecord.scope m ++ [ModuleRecord.metatype m]) =
       Some relatedModuleToken →
     addRelatedModule relatedModule token c =
       (Normal (),
        with_heap
          (λ h, <[owner := ModuleRecord.addRelatedModule
                     (JsMap.get relatedModuleToken (container_modules c)) m]> h)
          c)) as Hregistered.
  { intros owner m relatedModuleToken Howner Hm. unfold tokenOf.
    destruct (parts relatedModule) as [[type dm]|] eqn:Hparts; [|done].
    intros [= <-]. unfold addRelatedModule, bind, gets.
    assert (JsMap.has token (container_modules c) = true) as ->.
    { apply JsMap_has_true. by eexists. }
    simpl. rewrite Howner, (read_registered owner m) by done.
    destruct relatedModule as [|type'|type' md]; [done|..];
      injection Hparts as <- <-; simpl;
      rewrite (read_registered owner m) by done;
      by rewrite (invoke_registered owner m). }
  split; [|split].
  - intros Hpresent Hvalid.
    destruct (JsMap.get token (container_modules c)) as [owner|] eqn:Howner.
    + destruct (Hvalid token owner (JsMap_get_elem _ _ _ Howner)) as [m Hm].
      destruct (parts relatedModule) as [[type dm]|] eqn:Hparts;
        [|by destruct relatedModule].
      erewrite Hregistered; [done..|]. unfold tokenOf. by rewrite Hparts.
    + unfold addRelatedModule, bind, gets, JsMap.has. by rewrite Howner.
  - intros Hhas. unfold addRelatedModule, bind, gets. by rewrite Hhas.
  - intros owner m relatedModuleToken Howner Hm Htoken related.
    split; [by apply Hregistered|]. intros Hnone.
    rewrite (Hregistered owner m relatedModuleToken) by done.
    fold related. rewrite Hnone. unfold with_heap. simpl.
    rewrite list_insert_id by done. by destruct c.
Qed.

(** C8. [clear] empties the registry and leaves the store of dynamic
    metadata and the set of global modules as they were; the records
    themselves stay in the heap, where the global modules still refer to
    them. *)
Theorem clear_frame c :
  ∃ c', clear c = (Normal (), c') ∧
    container_modules c' = [] ∧
    dynamicModulesMetadata c' = dynamicModulesMetadata c ∧
    globalModules c' = globalModules c ∧
    heap c' = heap c.
Proof. by eexists. Qed.

(** C9. [getDynamicMetadataByToken] returns the list stored in the field
    of the metadata stored under the token, and the empty list when no
    metadata is stored under the token or the field is absent; it changes
    nothing. The result for a token without metadata is the result for a
    token whose metadata lacks the field or has it empty. *)
Theorem getDynamicMetadataByToken_spec token metadataKey c :
  getDynamicMetadataByToken token metadataKey c =
    (Normal (default []
               (JsMap.get token (dynamicModulesMetadata c) ≫=
                field metadataKey)), c) ∧
  (∀ metadata list,
     JsMap.get token (dynamicModulesMetadata c) = Some metadata →
     field metadataKey metadata = Some list →
     getDynamicMetadataByToken token metadataKey c = (Normal list, c)) ∧
  (JsMap.get token (dynamicModulesMetadata c) = None →
   getDynamicMetadataByToken token metadataKey c = (Normal [], c)) ∧
  (∀ metadata,
     JsMap.get token (dynamicModulesMetadata c) = Some metadata →
     field metadataKey metadata = None →
     getDynamicMetadataByToken token metadataKey c = (Normal [], c)) ∧
  (∀ token' c' metadata',
     JsMap.get token (dynamicModulesMetadata c) = None →
     JsMap.get token' (dynamicModulesMetadata c') = Some metadata' →
     field metadataKey metadata' = None ∨
     field metadataKey metadata' = Some [] →
     (getDynamicMetadataByToken token metadataKey c).1 =
       (getDynamicMetadataByToken token' metadataKey c').1).
Proof.
  assert (∀ token c,
    getDynamicMetadataByToken token metadataKey c =
      (Normal (default []
                 (JsMap.get token (dynamicModulesMetadata c) ≫=
                  field metadataKey)), c)) as Heq.
  { intros token0 c0. unfold getDynamicMetadataByToken, bind, gets.
    destruct (JsMap.get token0 _) as [metadata|]; [|done]. simpl.
    by destruct (field metadataKey metadata). }
  split; [apply Heq|]. split; [|split; [|split]].
  - intros metadata list Hget Hfield. by rewrite Heq, Hget; simpl; rewrite Hfield.
  - intros Hget. by rewrite Heq, Hget.
  - intros metadata Hget Hfield. by rewrite Heq, Hget; simpl; rewrite Hfield.
  - intros token' c' metadata' Hget Hget' Hfield.
    rewrite !Heq, Hget, Hget'. simpl. by destruct Hfield as [->| ->].
Qed.
End claims_on_modules.

(** ** Binding the global modules *)

Lemma grows_refl c : grows (λ _ _, False) c c.
Proof.
  repeat split; try done. intros r m Hm. exists m. repeat split; try done.
  - by left.
  - by intros [|[]].
Qed.

Lemma grows_trans edge edge' c c1 c2 :
  grows edge c c1 → grows edge' c1 c2 →
  grows (λ r y, edge r y ∨ edge' r y) c c2.
Proof.
  intros (Hm1 & Hg1 & Hd1 & Hl1 & Hh1) (Hm2 & Hg2 & Hd2 & Hl2 & Hh2).
  repeat split; try congruence. intros r m2 Hr2.
  destruct (Hh2 _ _ Hr2) as (m1 & Hr1 & Hsame2 & Hrel2).
  destruct (Hh1 _ _ Hr1) as (m & Hr & Hsame1 & Hrel1).
  exists m. split; [done|]. split; [congruence|].
  intros y. rewrite Hrel2, Hrel1. tauto.
Qed.

Lemma grows_iff edge edge' c c' :
  (∀ r y, edge r y ↔ edge' r y) → grows edge c c' → grows edge' c c'.
Proof.
  intros Hiff (Hm & Hg & Hd & Hl & Hh). repeat split; try done.
  intros r m' Hr. destruct (Hh _ _ Hr) as (m & Hm' & Hsame & Hrel).
  exists m. split; [done|]. split; [done|]. intros y.
  rewrite Hrel, Hiff. tauto.
Qed.

Lemma grows_is_Some edge c c' r :
  grows edge c c' → is_Some (heap c !! r) → is_Some (heap c' !! r).
Proof.
  intros (_ & _ & _ & Hl & _). rewrite !lookup_lt_is_Some. lia.
Qed.

(** One edge: the module becomes related to the global module unless they
    are the same. *)
Lemma bindGlobalModuleToModule_grows module globalModule c :
  is_Some (heap c !! module) →
  ∃ c', bindGlobalModuleToModule module globalModule c = (Normal (), c') ∧
    grows (λ r y, r = module ∧ y = globalModule ∧ y ≠ r) c c'.
Proof.
  intros [m Hm]. unfold bindGlobalModuleToModule.
  destruct (decide (module = globalModule)) as [<-|Hne].
  - exists c. split; [done|]. eapply grows_iff; [|apply grows_refl].
    intros r y. simpl. split; [done|]. intros (-> & -> & []). done.
  - rewrite (invoke_registered module m) by done. eexists. split; [done|].
    repeat split; simpl; [apply length_insert|].
    intros r m'. destruct (decide (module = r)) as [<-|Hr].
    + rewrite list_lookup_insert_eq by by eapply lookup_lt_Some.
      intros [= <-]. exists m. repeat split; try done.
      * simpl. rewrite JsSet_elem_of_add. intros [->|?]; [right|left]; done.
      * simpl. rewrite JsSet_elem_of_add. intros [?|(_ & -> & _)]; auto.
    + rewrite list_lookup_insert_ne by done. intros Hm'. exists m'.
      repeat split; try done; [by left|]. intros [?|(? & _)]; [done|].
      congruence.
Qed.

Lemma forEach_bindGlobalModuleToModule_grows module globals : ∀ c,
  is_Some (heap c !! module) →
  ∃ c', forEach (λ globalModule, bindGlobalModuleToModule module globalModule)
          globals c = (Normal (), c') ∧
    grows (λ r y, r = module ∧ y ∈ globals ∧ y ≠ r) c c'.
Proof.
  induction globals as [|g globals IH]; intros c Hvalid; simpl.
  { exists c. split; [done|]. eapply grows_iff; [|apply grows_refl].
    intros r y. simpl. split; [done|]. intros (_ & Hy & _).
    by apply elem_of_nil in Hy. }
  destruct (bindGlobalModuleToModule_grows module g c Hvalid)
    as (c1 & Hrun1 & Hgrows1).
  destruct (IH c1) as (c2 & Hrun2 & Hgrows2); [by eapply grows_is_Some|].
  exists c2. unfold bind. rewrite Hrun1. split; [done|].
  eapply grows_iff; [|by eapply grows_trans]. intros r y. simpl.
  rewrite elem_of_cons. split.
  - intros [(-> & -> & ?)|(-> & ? & ?)]; auto.
  - intros (-> & [->|?] & ?); auto.
Qed.

Lemma bindGlobalsToRelatedModules_grows module c :
  is_Some (heap c !! module) →
  ∃ c', bindGlobalsToRelatedModules module c = (Normal (), c') ∧
    grows (λ r y, r = module ∧ y ∈ globalModules c ∧ y ≠ r) c c'.
Proof.
  intros Hvalid. unfold bindGlobalsToRelatedModules, bind, gets.
  by apply forEach_bindGlobalModuleToModule_grows.
Qed.

Lemma forEach_bindGlobalsToRelatedModules_grows modules : ∀ c,
  (∀ r, r ∈ modules → is_Some (heap c !! r)) →
  ∃ c', forEach bindGlobalsToRelatedModules modules c = (Normal (), c') ∧
    grows (λ r y, r ∈ modules ∧ y ∈ globalModules c ∧ y ≠ r) c c'.
Proof.
  induction modules as [|module modules IH]; intros c Hvalid; simpl.
  { exists c. split; [done|]. eapply grows_iff; [|apply grows_refl].
    intros r y. simpl. split; [done|]. intros (Hr & _).
    by apply elem_of_nil in Hr. }
  destruct (bindGlobalsToRelatedModules_grows module c)
    as (c1 & Hrun1 & Hgrows1); [apply Hvalid, list_elem_of_here|].
  destruct (IH c1) as (c2 & Hrun2 & Hgrows2).
  { intros r Hr. eapply grows_is_Some; [done|].
    by apply Hvalid, list_elem_of_further. }
  exists c2. unfold bind. rewrite Hrun1. split; [done|].
  eapply grows_iff; [|by eapply grows_trans]. intros r y. simpl.
  destruct Hgrows1 as (_ & -> & _). rewrite elem_of_cons. split.
  - intros [(-> & ? & ?)|(? & ? & ?)]; auto.
  - intros ([->|?] & ? & ?); auto.
Qed.

(** C2. Global fan-out. When the addresses in the registry name objects,
    [bindGlobalScope] returns normally; it visits the modules of the
    registry in insertion order; afterwards every registered module is
    related to every global module other than itself, the related modules
    of a module are those it had and, for a registered module, the global
    modules other than itself, and nothing else in the container has
    changed. *)
Theorem bindGlobalScope_complete c :
  registry_valid c →
  ∃ c',
    bindGlobalScope c = (Normal (), c') ∧
    forEach bindGlobalsToRelatedModules
      (JsMap.values (container_modules c)) c = (Normal (), c') ∧
    (∀ token M G,
       (token, M) ∈ container_modules c → G ∈ globalModules c → M ≠ G →
       ∃ m', heap c' !! M = Some m' ∧ G ∈ ModuleRecord.relatedModules m') ∧
    grows (λ M G, M ∈ JsMap.values (container_modules c) ∧
                  G ∈ globalModules c ∧ G ≠ M) c c'.
Proof.
  intros Hvalid.
  destruct (forEach_bindGlobalsToRelatedModules_grows
              (JsMap.values (container_modules c)) c)
    as (c' & Hrun & Hgrows).
  { intros r [[token r'] [-> Hin]]%list_elem_of_fmap. by eapply Hvalid. }
  exists c'. split; [done|]. split; [done|]. split; [|done].
  intros token M G Hin HG Hne.
  destruct (Hvalid _ _ Hin) as [m Hm].
  destruct (grows_is_Some _ _ _ M Hgrows) as [m' Hm']; [by eexists|].
  exists m'. split; [done|].
  destruct Hgrows as (_ & _ & _ & _ & Hheap).
  destruct (Hheap _ _ Hm') as (m0 & _ & _ & Hrel). apply Hrel. right.
  split; [|by split]. apply list_elem_of_fmap. by exists (token, M).
Qed.

(** ** Reachable containers *)

Lemma NoDup_snd_elem {K V} (l : list (K * V)) k1 k2 v :
  NoDup l.*2 → (k1, v) ∈ l → (k2, v) ∈ l → k1 = k2.
Proof.
  induction l as [|[k v'] l IH]; simpl.
  { intros _ Hin. by apply elem_of_nil in Hin. }
  rewrite NoDup_cons. intros [Hv Hnd] Hin1 Hin2.
  assert (∀ k', (k', v') ∈ l → False) as Hnot.
  { intros k' Hin. apply Hv, list_elem_of_fmap. by exists (k', v'). }
  apply elem_of_cons in Hin1 as [Heq1|Hin1];
    apply elem_of_cons in Hin2 as [Heq2|Hin2]; simplify_eq.
  - done.
  - by destruct (Hnot _ Hin2).
  - by destruct (Hnot _ Hin1).
  - by apply IH.
Qed.

(** A method of a module that keeps the type and the scope of the record
    keeps the registry and the heap in agreement. *)
Lemma invoke_consistent {env : Collaborators} {A} module
    (method : ModuleRecord.t → A * ModuleRecord.t) :
  (∀ m, ModuleRecord.metatype (method m).2 = ModuleRecord.metatype m ∧
        ModuleRecord.scope (method m).2 = ModuleRecord.scope m) →
  preserves registry_consistent (invoke module method).
Proof.
  intros Hmethod c [Hkeys Hvalues Hrecords]. unfold invoke.
  destruct (deref module c) as [[r m]|] eqn:Hderef; [|done].
  destruct module as [r'|]; [|done]. simpl in Hderef.
  destruct (heap c !! r') as [m'|] eqn:Hm; [|done].
  injection Hderef as -> ->. split; [done..|]. simpl.
  intros token r' Hin. destruct (Hrecords _ _ Hin) as (m0 & Hm0 & dm & Hdm).
  destruct (decide (r = r')) as [<-|Hne].
  - exists (method m).2. split.
    + apply list_lookup_insert_eq. by eapply lookup_lt_Some.
    + exists dm. destruct (Hmethod m) as [-> ->]. congruence.
  - exists m0. split; [by rewrite list_lookup_insert_ne|by exists dm].
Qed.

Lemma deref_Some module c r m :
  deref module c = Some (r, m) → module = Some r ∧ heap c !! r = Some m.
Proof.
  unfold deref. destruct module as [r'|]; [|done]. simpl.
  destruct (heap c !! r') as [m'|] eqn:Hm; [|done]. by intros [= -> ->].
Qed.

(** A method of a module that does not relate the module to itself keeps
    the heap free of self-relations. *)
Lemma invoke_no_self {A} module (method : ModuleRecord.t → A * ModuleRecord.t) c :
  no_self_relation c →
  (∀ r m, deref module c = Some (r, m) →
          r ∉ ModuleRecord.relatedModules (method m).2) →
  no_self_relation (invoke module method c).2.
Proof.
  intros Hc Hmethod. unfold invoke.
  destruct (deref module c) as [[r m]|] eqn:Hderef; [|done].
  pose proof (Hmethod _ _ eq_refl) as Hr.
  apply deref_Some in Hderef as [_ Hm].
  intros r' m'. simpl. destruct (decide (r = r')) as [<-|Hne].
  - rewrite list_lookup_insert_eq by by eapply lookup_lt_Some.
    by intros [= <-].
  - rewrite list_lookup_insert_ne by done. apply Hc.
Qed.

Section reachable.
Context {env : Collaborators}.

Lemma onModule_inv {A} token (method : ModuleRecord.t → A * ModuleRecord.t) :
  (∀ m, ModuleRecord.metatype (method m).2 = ModuleRecord.metatype m ∧
        ModuleRecord.scope (method m).2 = ModuleRecord.scope m ∧
        ModuleRecord.relatedModules (method m).2 =
          ModuleRecord.relatedModules m) →
  preserves container_inv (onModule token method).
Proof.
  intros Hmethod c [Hcons Hself]. unfold onModule, bind, gets.
  destruct (JsMap.has token (container_modules c)); [|done]. simpl. split.
  - apply invoke_consistent; [|done]. intros m.
    by destruct (Hmethod m) as (? & ? & _).
  - apply invoke_no_self; [done|]. intros r m [_ Hm]%deref_Some.
    destruct (Hmethod m) as (_ & _ & ->). by eapply Hself.
Qed.

Lemma bindGlobalModuleToModule_consistent module globalModule :
  preserves registry_consistent (bindGlobalModuleToModule module globalModule).
Proof.
  intros c Hcons. unfold bindGlobalModuleToModule.
  destruct (decide (module = globalModule)) as [|Hne]; [done|].
  by apply invoke_consistent.
Qed.

Lemma bindGlobalModuleToModule_no_self module globalModule :
  preserves no_self_relation (bindGlobalModuleToModule module globalModule).
Proof.
  intros c Hself. unfold bindGlobalModuleToModule.
  destruct (decide (module = globalModule)) as [|Hne]; [done|].
  apply invoke_no_self; [done|]. intros r m [[= <-] Hm]%deref_Some.
  simpl. rewrite JsSet_elem_of_add. intros [?|?]; [done|].
  by eapply Hself.
Qed.

Lemma bindGlobalsToRelatedModules_preserves I module :
  (∀ r g, preserves I (bindGlobalModuleToModule r g)) →
  preserves I (bindGlobalsToRelatedModules module).
Proof.
  intros Hstep. apply preserves_bind; [apply preserves_gets|]. intros globals.
  apply preserves_forEach, Forall_forall. intros g _. apply Hstep.
Qed.

Lemma bindGlobalScope_preserves I :
  (∀ r g, preserves I (bindGlobalModuleToModule r g)) →
  preserves I bindGlobalScope.
Proof.
  intros Hstep. apply preserves_bind; [apply preserves_gets|]. intros modules.
  apply preserves_forEach, Forall_forall. intros r _.
  by apply bindGlobalsToRelatedModules_preserves.
Qed.

Lemma bindGlobalModuleToModule_inv module globalModule :
  preserves container_inv (bindGlobalModuleToModule module globalModule).
Proof.
  intros c [Hcons Hself]. split.
  - by apply bindGlobalModuleToModule_consistent.
  - by apply bindGlobalModuleToModule_no_self.
Qed.

Lemma registered_inv type dm scope c :
  container_inv c →
  JsMap.has (create type scope dm) (container_modules c) = false →
  container_inv (registered type dm scope c).
Proof.
  intros [Hcons Hself] Hfresh.
  split; [by apply registered_consistent|by apply registered_no_self].
Qed.

Lemma addGlobal_inv r c :
  container_inv c → container_inv (with_globalModules (JsSet.add r) c).
Proof. by intros [[] ?]. Qed.

Lemma addDynamicMetadata_inv token dm scope :
  preserves container_inv (addDynamicMetadata token dm scope).
Proof.
  destruct dm as [md|]; [|apply preserves_ret].
  apply preserves_bind; [apply preserves_update; by intros c [[] ?]|].
  intros _. apply preserves_bind; [|intros _];
    apply (addDynamicModules_preserves container_inv);
    auto using registered_inv, addGlobal_inv.
Qed.

Lemma relate_inv owner related c :
  container_inv c → related ≠ Some owner →
  container_inv
    (invoke (Some owner) (void (ModuleRecord.addRelatedModule related)) c).2.
Proof.
  intros [Hcons Hself] Hne. split.
  - apply invoke_consistent; [|done]. intros m. by destruct related.
  - apply invoke_no_self; [done|]. intros r m [[= <-] Hm]%deref_Some.
    destruct related as [related|]; simpl; [|by eapply Hself].
    rewrite JsSet_elem_of_add. intros [->|?]; [done|]. by eapply Hself.
Qed.

(** With unique tokens, the module that [addRelatedModule] finds is not
    the owner: its token was computed in a longer scope. *)
Lemma related_not_owner token owner m type dm c :
  token_unique → registry_consistent c →
  JsMap.get token (container_modules c) = Some owner →
  heap c !! owner = Some m →
  JsMap.get
    (create type (ModuleRecord.scope m ++ [ModuleRecord.metatype m]) dm)
    (container_modules c) ≠ Some owner.
Proof.
  intros Hunique [Hkeys Hvalues Hrecords] Howner Hm Hrelated.
  apply JsMap_get_elem in Howner, Hrelated.
  pose proof (NoDup_snd_elem _ _ _ _ Hvalues Howner Hrelated) as Htoken.
  destruct (Hrecords _ _ Howner) as (m0 & Hm0 & dm0 & Hdm).
  assert (m0 = m) as -> by congruence.
  rewrite Hdm in Htoken. apply Hunique in Htoken as [_ Hscope].
  apply (f_equal length) in Hscope. rewrite length_app in Hscope.
  simpl in Hscope. lia.
Qed.

Lemma addRelatedModule_inv relatedModule token :
  token_unique → preserves container_inv (addRelatedModule relatedModule token).
Proof.
  intros Hunique c Hc. unfold addRelatedModule, bind, gets.
  destruct (JsMap.has token (container_modules c)) eqn:Hhas; [|done]. simpl.
  apply JsMap_has_true in Hhas as [owner Howner]. rewrite Howner.
  unfold read at 1. destruct (deref (Some owner) c) as [[r m]|] eqn:Hderef;
    [|done].
  apply deref_Some in Hderef as [[= <-] Hm].
  destruct relatedModule as [|type|type md]; [done|..]; simpl;
    rewrite (read_registered owner m) by done;
    (apply relate_inv; [done|]); destruct Hc as [Hcons _];
    by eapply related_not_owner.
Qed.

Lemma after_inv call c :
  token_unique → container_inv c → container_inv (after call c).
Proof.
  intros Hunique Hc. destruct call; simpl.
  - apply (addModule_preserves container_inv);
      auto using registered_inv, addGlobal_inv.
  - by apply addDynamicMetadata_inv.
  - apply (addDynamicModules_preserves container_inv);
      auto using registered_inv, addGlobal_inv.
  - by apply addGlobal_inv.
  - by apply addRelatedModule_inv.
  - by apply onModule_inv.
  - by apply onModule_inv.
  - by apply onModule_inv.
  - by apply onModule_inv.
  - destruct Hc as [_ Hself]. split; [|done]. split; [apply NoDup_nil_2..|].
    intros token r Hin. by apply elem_of_nil in Hin.
  - apply bindGlobalScope_preserves; [|done].
    apply bindGlobalModuleToModule_inv.
  - apply bindGlobalsToRelatedModules_preserves; [|done].
    apply bindGlobalModuleToModule_inv.
  - by apply bindGlobalModuleToModule_inv.
Qed.

(** C7. No self-relation. With unique tokens, in every container a client
    can bring about from a new one, by any calls in any order and however
    they end, no module has itself among its related modules, global or
    not. [bindGlobalModuleToModule] on a module and itself returns and
    changes nothing, and [bindGlobalScope] on any container without
    self-relations leaves one without self-relations. *)
Theorem no_self_relation_reachable :
  token_unique →
  (∀ c, reachable c → no_self_relation c) ∧
  (∀ module c, bindGlobalModuleToModule module module c = (Normal (), c)) ∧
  (∀ c, no_self_relation c → no_self_relation (bindGlobalScope c).2).
Proof.
  intros Hunique. split; [|split].
  - intros c Hc. cut (container_inv c); [by intros []|].
    induction Hc as [|call c Hc IH]; [|by apply after_inv].
    split; [|by intros r m Hm].
    split; [apply NoDup_nil_2..|]. intros token r Hin.
    by apply elem_of_nil in Hin.
  - intros module c. unfold bindGlobalModuleToModule. by rewrite decide_True.
  - intros c Hself. apply bindGlobalScope_preserves; [|done].
    apply bindGlobalModuleToModule_no_self.
Qed.
End reachable.

(** ** Claims on registration *)

Section claims.
Context {env : Collaborators}.

Lemma addModule_wf_keys metatype scope c :
  JsMap.wf (container_modules c) →
  JsMap.wf (container_modules (addModule metatype scope c).2).
Proof.
  apply (addModule_preserves (λ c', JsMap.wf (container_modules c'))).
  - intros type dm scope' c' Hc' Hhas.
    rewrite registered_modules_fresh by done. by apply JsMap_wf_app_fresh.
  - done.
Qed.

(** C1. Registration is idempotent. After [addModule] on a reference in a
    scope, a second call with the same reference and scope leaves the
    container as it is: registry, dynamic metadata, global modules and
    heap. When the reference is present, the registry holds exactly one
    entry under its token, and [addModule] on any reference with that
    token returns normally and changes nothing. *)
Theorem addModule_idempotent metatype scope c :
  JsMap.wf (container_modules c) →
  let c1 := (addModule metatype scope c).2 in
  (addModule metatype scope c1).2 = c1 ∧
  ∀ token, tokenOf metatype scope = Some token →
    JsMap.count token (container_modules c1) = 1 ∧
    ∀ metatype' scope', tokenOf metatype' scope' = Some token →
      addModule metatype' scope' c1 = (Normal (), c1).
Proof.
  intros Hwf c1.
  assert (∀ token, tokenOf metatype scope = Some token →
            JsMap.has token (container_modules c1) = true) as Hhas.
  { intros token. unfold tokenOf.
    destruct (parts metatype) as [[type dm]|] eqn:Hparts; [|done].
    intros [= <-]. by apply addModule_has_token. }
  assert (∀ token metatype' scope',
            JsMap.has token (container_modules c1) = true →
            tokenOf metatype' scope' = Some token →
            addModule metatype' scope' c1 = (Normal (), c1)) as Hagain.
  { intros token metatype' scope' Htoken. unfold tokenOf.
    destruct (parts metatype') as [[type' dm']|] eqn:Hparts'; [|done].
    intros [= <-]. by eapply addModule_registered. }
  split.
  - destruct (tokenOf metatype scope) as [token|] eqn:Htoken.
    + by rewrite (Hagain token) by eauto.
    + destruct metatype; done.
  - intros token Htoken. split; [|intros ??; by apply Hagain; eauto].
    apply JsMap_count_wf; [by apply addModule_wf_keys|by apply Hhas].
Qed.

(** C3. Nested dynamic registration. Take a dynamic module whose token is
    not in the registry. [addModule] on it returns normally when no absent
    reference occurs in it. After a call that returned normally, the
    configuration is in the store of dynamic metadata under the token of
    the module, and every reference listed in the [modules] and [imports]
    fields has an entry in the registry under the token computed in the
    scope extended by the type of the dynamic module. When the registry
    and the heap agreed before the call and tokens are unique, the record
    of that entry carries the type of the nested module and the extended
    scope. *)
Theorem addModule_dynamic type md scope c :
  JsMap.has (create type scope (Some md)) (container_modules c) = false →
  (has_absent (DynamicModule type md) = false →
   (addModule (DynamicModule type md) scope c).1 = Normal ()) ∧
  ∀ c', addModule (DynamicModule type md) scope c = (Normal (), c') →
    JsMap.get (create type scope (Some md)) (dynamicModulesMetadata c') =
      Some md ∧
    ∀ x, x ∈ nested md → ∃ type' dm' r,
      parts x = Some (type', dm') ∧
      JsMap.get (create type' (scope ++ [type]) dm') (container_modules c') =
        Some r ∧
      (registry_consistent c → token_unique →
       ∃ m, heap c' !! r = Some m ∧
            ModuleRecord.metatype m = type' ∧
            ModuleRecord.scope m = scope ++ [type]).
Proof.
  intros Hfresh. split; [apply addModule_normal|]. intros c' Hrun.
  pose proof (addModule_consistent (DynamicModule type md) scope c) as Hcons.
  rewrite Hrun in Hcons. simpl in Hcons.
  rewrite (addModule_unfold _ type (Some md)), Hfresh in Hrun by done.
  apply bind_normal in Hrun as ([] & c2 & Hnested & Hglobal).
  set (token := create type scope (Some md)) in *.
  set (c1 := registered type (Some md) scope c) in *.
  assert (container_modules c' = container_modules c2 ∧
          dynamicModulesMetadata c' = dynamicModulesMetadata c2)
    as [Hmodules Hmetadata].
  { destruct (isGlobalModule type); by injection Hglobal as <-. }
  split.
  - rewrite Hmetadata. replace c2 with (addNested (Some md) (scope ++ [type]) c1).2
      by by rewrite Hnested.
    apply (addNested_preserves
      (λ c', JsMap.has token (container_modules c') = true ∧
             JsMap.get token (dynamicModulesMetadata c') = Some md)).
    + intros type' dm' scope' c3 [Hhas Hget] Hfresh'. split.
      * rewrite registered_modules_fresh by done. by apply JsMap_has_app_l.
      * rewrite registered_dynamicModulesMetadata.
        destruct dm' as [md'|]; [|done].
        rewrite JsMap_get_set_ne; [done|]. intros Heq. rewrite Heq in Hfresh'.
        congruence.
    + done.
    + unfold c1. rewrite registered_modules, registered_dynamicModulesMetadata.
      split; [|apply JsMap_get_set_eq].
      apply JsMap_has_true. rewrite JsMap_get_set_eq. by eexists.
  - intros x Hx. rewrite addNested_unfold in Hnested.
    destruct (forEach_addModule_registered _ _ _ _ Hnested x Hx)
      as (type' & dm' & Hparts & Hhas).
    rewrite <- Hmodules in Hhas.
    apply JsMap_has_true in Hhas as [r Hr].
    exists type', dm', r. split; [done|]. split; [done|].
    intros Hc Hunique. destruct (Hcons Hc) as [_ _ Hrecords].
    destruct (Hrecords _ _ (JsMap_get_elem _ _ _ Hr)) as (m & Hm & dm & Hdm).
    exists m. split; [done|]. by destruct (Hunique _ _ _ _ _ _ Hdm).
Qed.

(** C4, as amended. [addModule] on an absent reference throws
    [InvalidModuleException] with the scope it was given and changes
    nothing. [addModule] throws an [InvalidModuleException] exactly when
    the reference is absent, or the reference is a dynamic module whose
    token is not in the registry and, after the module and the nested
    modules listed before it are registered, the call of [addModule] on
    a nested module, in the scope extended by the type of the dynamic
    module, throws it; the exception and the container are then those of
    the nested call. The scope in the exception is one in which an
    absent reference stands. *)
Theorem addModule_invalid metatype scope c :
  (metatype = Absent →
   addModule metatype scope c = (Throw (InvalidModuleException scope), c)) ∧
  (∀ scope' c',
     addModule metatype scope c = (Throw (InvalidModuleException scope'), c') ↔
     (metatype = Absent ∧ scope' = scope ∧ c' = c) ∨
     ∃ type md front x behind c1,
       metatype = DynamicModule type md ∧
       JsMap.has (create type scope (Some md)) (container_modules c) = false ∧
       nested md = front ++ x :: behind ∧
       forEach (λ module, addModule module (scope ++ [type])) front
         (registered type (Some md) scope c) = (Normal (), c1) ∧
       addModule x (scope ++ [type]) c1 =
         (Throw (InvalidModuleException scope'), c')) ∧
  (∀ scope' c',
     addModule metatype scope c = (Throw (InvalidModuleException scope'), c') →
     scope' ∈ absent_scopes metatype scope).
Proof.
  split; [by intros ->|]. split.
  - intros scope' c'. destruct metatype as [|type|type md].
    + simpl. unfold throw. split.
      * intros [= <- <-]. by left.
      * intros [(_ & -> & ->)|(type & md & ? & ? & ? & ? & [=] & _)]. done.
    + rewrite (addModule_unfold _ type None) by done. split.
      * destruct (JsMap.has _ _); [done|]. unfold bind. simpl.
        by destruct (isGlobalModule type).
      * intros [([=] & _)|(type' & md & ? & ? & ? & ? & [=] & _)].
    + rewrite (addModule_unfold _ type (Some md)) by done. split.
      * destruct (JsMap.has _ _) eqn:Hfresh; [done|].
        intros [Hthrow|(a & c1 & _ & Hthrow)]%bind_throw;
          [|by destruct (isGlobalModule type)].
        rewrite addNested_unfold in Hthrow.
        apply forEach_throw_iff in Hthrow
          as (front & x & behind & c1 & Hnested & Hfront & Hx).
        right. by exists type, md, front, x, behind, c1.
      * intros [([=] & _)|(type' & md' & front & x & behind & c1 & Heq &
                           Hfresh & Hnested & Hfront & Hx)].
        injection Heq as <- <-. rewrite Hfresh. unfold bind.
        assert (addNested (Some md) (scope ++ [type])
                  (registered type (Some md) scope c) =
                (Throw (InvalidModuleException scope'), c')) as ->; [|done].
        rewrite addNested_unfold. apply forEach_throw_iff.
        by exists front, x, behind, c1.
  - intros scope' c' Hthrow.
    destruct (addModule_throw_absent _ _ _ _ _ Hthrow) as (scope'' & Heq & Hin).
    by injection Heq as ->.
Qed.

(** C10. Parent before child. When the token of a reference is not in the
    registry, [addModule] puts the entry of the module at the end of the
    registry, for a record at the next address, and only then registers
    the nested modules: their entries come after it. A nested reference
    with the token of the parent finds it registered, and the call on it
    returns at once. *)
Theorem addModule_parent_first metatype type dm scope c :
  parts metatype = Some (type, dm) →
  JsMap.has (create type scope dm) (container_modules c) = false →
  let token := create type scope dm in
  let c1 := registered type dm scope c in
  container_modules c1 = container_modules c ++ [(token, length (heap c))] ∧
  heap c1 !! length (heap c) = Some (ModuleRecord.new type scope) ∧
  (∃ later,
     container_modules (addNested dm (scope ++ [type]) c1).2 =
       container_modules c1 ++ later ∧
     container_modules (addModule metatype scope c).2 =
       container_modules c ++ (token, length (heap c)) :: later) ∧
  (∀ metatype' scope' c',
     container_modules c1 `prefix_of` container_modules c' →
     tokenOf metatype' scope' = Some token →
     addModule metatype' scope' c' = (Normal (), c')).
Proof.
  intros Hparts Hfresh token c1.
  assert (container_modules c1 =
            container_modules c ++ [(token, length (heap c))]) as Hc1.
  { by apply registered_modules_fresh. }
  split; [done|]. split.
  { unfold c1. rewrite registered_heap. by apply list_lookup_middle. }
  split.
  - destruct (addNested_registry_prefix dm (scope ++ [type]) c1)
      as [later Hlater].
    exists later. split; [done|].
    rewrite (addModule_unfold _ _ _ _ _ Hparts), Hfresh. unfold bind.
    fold c1. destruct (addNested dm (scope ++ [type]) c1) as [[[]|e] c2];
      simpl in *.
    + destruct (isGlobalModule type); simpl;
        by rewrite Hlater, Hc1, <- app_assoc.
    + by rewrite Hlater, Hc1, <- app_assoc.
  - intros metatype' scope' c' Hpre. unfold tokenOf.
    destruct (parts metatype') as [[type' dm']|] eqn:Hparts'; [|done].
    intros [= Htoken]. eapply addModule_registered; [done|].
    simpl in Htoken. rewrite Htoken. eapply has_prefix; [done|].
    rewrite Hc1. apply JsMap_has_true.
    rewrite JsMap_get_app_r; [simpl; rewrite decide_True; by eauto|].
    apply JsMap_get_None. by apply JsMap_has_false.
Qed.
End claims.

(** ** Witnesses and counterexamples, on the sample collaborators *)

Lemma addModule_idempotent_witness :
  JsMap.wf (container_modules empty_container) ∧
  let c1 := (addModule (env:=sample) sample_dynamic [] empty_container).2 in
  (addModule (env:=sample) sample_dynamic [] c1).2 = c1 ∧
  ∀ token, tokenOf (env:=sample) sample_dynamic [] = Some token →
    JsMap.count token (container_modules c1) = 1 ∧
    ∀ metatype' scope', tokenOf (env:=sample) metatype' scope' = Some token →
      addModule (env:=sample) metatype' scope' c1 = (Normal (), c1).
Proof.
  split; [apply NoDup_nil_2|].
  apply (addModule_idempotent (env:=sample) sample_dynamic [] empty_container).
  apply NoDup_nil_2.
Defined.

(** C4, as stated, fails: [addModule] on a dynamic module whose [imports]
    hold [undefined] throws [InvalidModuleException] although the
    reference is present, and the container has changed: the module and
    the import before the absent one are registered. *)
Lemma addModule_invalid_counterexample :
  ∃ c', addModule (env:=sample) sample_broken [] empty_container =
          (Throw (InvalidModuleException ["DynModule"]), c') ∧
        sample_broken ≠ Absent ∧
        length (container_modules c') = 2 ∧
        c' ≠ empty_container.
Proof.
  eexists. split; [vm_compute; reflexivity|].
  split; [done|]. split; [done|]. intros [=].
Qed.

Lemma addModule_invalid_witness :
  addModule (env:=sample) sample_broken [] empty_container =
    (Throw (InvalidModuleException ["DynModule"]),
     (addModule (env:=sample) sample_broken [] empty_container).2) ∧
  ["DynModule"] ∈ absent_scopes sample_broken [].
Proof.
  assert (addModule (env:=sample) sample_broken [] empty_container =
            (Throw (InvalidModuleException ["DynModule"]),
             (addModule (env:=sample) sample_broken [] empty_container).2))
    as Hrun by (vm_compute; reflexivity).
  split; [exact Hrun|].
  destruct (addModule_invalid (env:=sample) sample_broken [] empty_container)
    as (_ & _ & Hscope).
  exact (Hscope _ _ Hrun).
Defined.

Lemma addModule_parent_first_witness :
  parts sample_dynamic = Some ("DynModule", Some sample_metadata) ∧
  JsMap.has sample_token (container_modules empty_container) = false ∧
  ∃ later,
    container_modules sample_container = [] ++ (sample_token, 0) :: later.
Proof.
  split; [reflexivity|]. split; [reflexivity|].
  destruct (addModule_parent_first (env:=sample) sample_dynamic "DynModule"
              (Some sample_metadata) [] empty_container eq_refl eq_refl)
    as (_ & _ & (later & _ & Hlater) & _).
  exists later. exact Hlater.
Defined.

Lemma sample_token_unique : token_unique (env:=sample).
Proof.
  intros type scope dm type' scope' dm' Heq. simpl in Heq.
  apply (inj pretty), (inj encode) in Heq. by injection Heq.
Qed.

Lemma empty_container_consistent {env : Collaborators} :
  registry_consistent empty_container.
Proof.
  split; [apply NoDup_nil_2..|]. intros token r Hin.
  by apply elem_of_nil in Hin.
Qed.

Lemma addModule_dynamic_witness :
  JsMap.has sample_token (container_modules empty_container) = false ∧
  (addModule (env:=sample) sample_dynamic [] empty_container).1 = Normal () ∧
  JsMap.get sample_token (dynamicModulesMetadata sample_container) =
    Some sample_metadata ∧
  ∃ r m,
    JsMap.get
      (create (Collaborators:=sample) "OtherModule" ["DynModule"] None)
      (container_modules sample_container) = Some r ∧
    heap sample_container !! r = Some m ∧
    ModuleRecord.metatype m = "OtherModule" ∧
    ModuleRecord.scope m = ["DynModule"].
Proof.
  destruct (addModule_dynamic (env:=sample) "DynModule" sample_metadata []
              empty_container eq_refl) as [Hnormal Hafter].
  specialize (Hnormal eq_refl).
  assert (addModule (env:=sample) sample_dynamic [] empty_container =
            (Normal (), sample_container)) as Hrun.
  { unfold sample_container, sample_dynamic in *.
    destruct (addModule _ _ empty_container) as [[[]|e] c'];
      [reflexivity|discriminate Hnormal]. }
  destruct (Hafter _ Hrun) as [Hmetadata Hnested].
  destruct (Hnested (StaticType "OtherModule"))
    as (type' & dm' & r & Hparts & Hr & Hrecord).
  { apply list_elem_of_here. }
  injection Hparts as <- <-.
  destruct (Hrecord empty_container_consistent sample_token_unique)
    as (m & Hm & Htype & Hscope).
  split; [reflexivity|]. split; [exact Hnormal|]. split; [exact Hmetadata|].
  exists r, m. split; [exact Hr|]. split; [exact Hm|].
  split; [exact Htype|exact Hscope].
Defined.

Lemma sample_container_consistent :
  registry_consistent (env:=sample) sample_container.
Proof. apply addModule_consistent, empty_container_consistent. Qed.

Lemma registry_consistent_valid {env : Collaborators} c :
  registry_consistent c → registry_valid c.
Proof.
  intros [_ _ Hrecords] token r Hin.
  destruct (Hrecords _ _ Hin) as (m & Hm & _). by exists m.
Qed.

Lemma sample_container_valid : registry_valid sample_container.
Proof.
  apply (registry_consistent_valid (env:=sample)), sample_container_consistent.
Qed.

Lemma bindGlobalScope_complete_witness :
  registry_valid sample_container ∧
  ∃ c', bindGlobalScope sample_container = (Normal (), c') ∧
    ∃ m', heap c' !! 0 = Some m' ∧ 2 ∈ ModuleRecord.relatedModules m'.
Proof.
  split; [exact sample_container_valid|].
  destruct (bindGlobalScope_complete sample_container sample_container_valid)
    as (c' & Hrun & _ & Hcomplete & _).
  exists c'. split; [exact Hrun|].
  apply (Hcomplete sample_token 0 2).
  - apply JsMap_get_elem. vm_compute. reflexivity.
  - vm_compute. apply list_elem_of_here.
  - discriminate.
Defined.

Lemma unknown_token_rejected_witness :
  JsMap.has "nonexistent-token" (container_modules sample_container) = false ∧
  addComponent "Service" "nonexistent-token" sample_container =
    (Throw UnknownModuleException, sample_container) ∧
  JsMap.get sample_token (container_modules sample_container) = Some 0 ∧
  heap sample_container !! 0 = Some (ModuleRecord.new "DynModule" []) ∧
  addComponent "Service" sample_token sample_container =
    (Normal "Service",
     with_heap
       (λ h, <[0 := (ModuleRecord.addComponent "Service"
                       (ModuleRecord.new "DynModule" [])).2]> h)
       sample_container).
Proof.
  assert (JsMap.has "nonexistent-token" (container_modules sample_container) =
            false) as Hunknown by (vm_compute; reflexivity).
  assert (JsMap.get sample_token (container_modules sample_container) =
            Some 0) as Hknown by (vm_compute; reflexivity).
  assert (heap sample_container !! 0 = Some (ModuleRecord.new "DynModule" []))
    as Hrecord by (vm_compute; reflexivity).
  split; [exact Hunknown|]. split.
  - apply (unknown_token_rejected "nonexistent-token" sample_container).
    exact Hunknown.
  - split; [exact Hknown|]. split; [exact Hrecord|].
    apply (unknown_token_rejected sample_token sample_container).
    + exact Hknown.
    + exact Hrecord.
Defined.

(** C6, as stated, fails: on an absent reference and a registered owner,
    [addRelatedModule] reads a field of [undefined] and throws a
    [TypeError]. *)
Lemma addRelatedModule_tolerant_counterexample :
  JsMap.has sample_token (container_modules sample_container) = true ∧
  addRelatedModule (env:=sample) Absent sample_token sample_container =
    (Throw TypeError, sample_container).
Proof. split; vm_compute; reflexivity. Qed.

Lemma addRelatedModule_tolerant_witness :
  StaticType "OtherModule" ≠ Absent ∧
  registry_valid sample_container ∧
  (addRelatedModule (env:=sample) (StaticType "OtherModule") sample_token
     sample_container).1 = Normal ().
Proof.
  split; [discriminate|]. split; [exact sample_container_valid|].
  apply (addRelatedModule_tolerant (env:=sample)).
  - discriminate.
  - exact sample_container_valid.
Defined.

Lemma no_self_relation_reachable_witness :
  token_unique (env:=sample) ∧
  no_self_relation
    (after (env:=sample) BindGlobalScope
       (after (env:=sample) (AddModule sample_dynamic []) empty_container)).
Proof.
  split; [exact sample_token_unique|].
  destruct (no_self_relation_reachable (env:=sample) sample_token_unique)
    as [Hreachable _].
  apply Hreachable, reachable_call, reachable_call, reachable_new.
Defined.

Lemma getDynamicMetadataByToken_spec_witness :
  JsMap.get sample_token (dynamicModulesMetadata sample_container) =
    Some sample_metadata ∧
  field KImports sample_metadata = Some [StaticType "GlobalModule"] ∧
  getDynamicMetadataByToken sample_token KImports sample_container =
    (Normal [StaticType "GlobalModule"], sample_container).
Proof.
  assert (JsMap.get sample_token (dynamicModulesMetadata sample_container) =
            Some sample_metadata) as Hstored by (vm_compute; reflexivity).
  split; [exact Hstored|]. split; [reflexivity|].
  apply (getDynamicMetadataByToken_spec sample_token KImports sample_container
           ) with (metadata := sample_metadata).
  - exact Hstored.
  - reflexivity.
Defined.

(** * Further properties *)

(** ** What registration leaves alone and what it adds *)

Section registration_effects.
Context {env : Collaborators}.

Lemma registered_globalModules_eq type dm scope c :
  globalModules (registered type dm scope c) = globalModules c.
Proof. by destruct dm. Qed.

Lemma JsSet_add_prefix (r : ModuleRef) s : s `prefix_of` JsSet.add r s.
Proof.
  unfold JsSet.add. destruct (decide (r ∈ s)); [done|]. by apply prefix_app_r.
Qed.

Lemma addModule_keeps metatype scope c :
  heap c `prefix_of` heap (addModule metatype scope c).2 ∧
  globalModules c `prefix_of` globalModules (addModule metatype scope c).2.
Proof.
  apply (addModule_preserves (λ c',
    heap c `prefix_of` heap c' ∧ globalModules c `prefix_of` globalModules c')).
  - intros type dm scope' c' [Hheap Hglobals] _.
    rewrite registered_heap, registered_globalModules_eq.
    split; [by apply prefix_app_r|done].
  - intros r c' [Hheap Hglobals]. split; [done|]. simpl.
    etrans; [done|apply JsSet_add_prefix].
  - done.
Qed.

(** X1. The frame of [addModule]: however the call ends, the records that
    were in the heap, the entries that were in the registry and the global
    modules that were in the set are still there, unchanged and in front
    of what was added, and the metadata stored under a token that was
    registered is what it was. *)
Theorem addModule_frame metatype scope c :
  let c' := (addModule metatype scope c).2 in
  heap c `prefix_of` heap c' ∧
  container_modules c `prefix_of` container_modules c' ∧
  globalModules c `prefix_of` globalModules c' ∧
  ∀ token, JsMap.has token (container_modules c) = true →
    JsMap.get token (dynamicModulesMetadata c') =
      JsMap.get token (dynamicModulesMetadata c).
Proof.
  apply (addModule_preserves (λ c',
    heap c `prefix_of` heap c' ∧
    container_modules c `prefix_of` container_modules c' ∧
    globalModules c `prefix_of` globalModules c' ∧
    ∀ token, JsMap.has token (container_modules c) = true →
      JsMap.get token (dynamicModulesMetadata c') =
        JsMap.get token (dynamicModulesMetadata c))).
  - intros type dm scope' c' (Hheap & Hmodules & Hglobals & Hmetadata) Hfresh.
    rewrite registered_heap, registered_modules_fresh,
      registered_globalModules_eq, registered_dynamicModulesMetadata by done.
    repeat split; try by apply prefix_app_r.
    + done.
    + intros token Htoken. destruct dm as [md|]; [|by apply Hmetadata].
      rewrite JsMap_get_set_ne; [by apply Hmetadata|].
      intros Heq. rewrite Heq in Hfresh.
      by rewrite (has_prefix _ _ _ Hmodules Htoken) in Hfresh.
  - intros r c' (Hheap & Hmodules & Hglobals & Hmetadata).
    repeat split; try done. simpl. etrans; [done|apply JsSet_add_prefix].
  - done.
Qed.
End registration_effects.

Section registration_adds.
Context {env : Collaborators}.

(** X2. What [addModule] adds: however the call ends, the registry got
    some entries at its end and the heap as many records at its end; the
    entries point, in their order, at the addresses of these records, and
    each record is a new one, without components or related modules, for
    a type and a scope from which the token of its entry was computed. No
    record is made without an entry. *)
Theorem addModule_allocation metatype scope c :
  ∃ entries records,
    container_modules (addModule metatype scope c).2 =
      container_modules c ++ entries ∧
    heap (addModule metatype scope c).2 = heap c ++ records ∧
    entries.*2 = seq (length (heap c)) (length records) ∧
    Forall2 (λ entry m, ∃ type scope' dm,
               entry.1 = create type scope' dm ∧
               m = ModuleRecord.new type scope') entries records.
Proof.
  apply (addModule_preserves (λ c', ∃ entries records,
    container_modules c' = container_modules c ++ entries ∧
    heap c' = heap c ++ records ∧
    entries.*2 = seq (length (heap c)) (length records) ∧
    Forall2 (λ entry m, ∃ type scope' dm,
               entry.1 = create type scope' dm ∧
               m = ModuleRecord.new type scope') entries records)).
  - intros type dm scope' c' (entries & records & Hm & Hh & Haddr & Hnew) Hfresh.
    exists (entries ++ [(create type scope' dm, length (heap c'))]),
      (records ++ [ModuleRecord.new type scope']).
    rewrite registered_modules_fresh, registered_heap by done.
    rewrite Hm, Hh, <- !app_assoc. split; [done|]. split; [done|]. split.
    + rewrite fmap_app, Haddr, !length_app. simpl.
      rewrite Nat.add_1_r, seq_S. done.
    + apply Forall2_app; [done|].
      constructor; [by exists type, scope', dm|constructor].
  - intros r c' H. exact H.
  - exists [], []. by rewrite !app_nil_r.
Qed.

(** X3. Metadata only for registered tokens: when every token with
    stored metadata is in the registry before [addModule], that is so
    after it, however the call ends. ([clear] and a direct call of
    [addDynamicMetadata] do not keep this.) *)
Theorem addModule_metadata_registered metatype scope c :
  metadata_registered c →
  metadata_registered (addModule metatype scope c).2.
Proof.
  apply (addModule_preserves metadata_registered).
  - intros type dm scope' c' Hc' Hfresh token.
    rewrite registered_modules_fresh, registered_dynamicModulesMetadata
      by done.
    destruct (decide (token = create type scope' dm)) as [->|Hne].
    + intros _. apply JsMap_has_true.
      rewrite JsMap_get_app_r; [simpl; rewrite decide_True; by eauto|].
      apply JsMap_get_None. by apply JsMap_has_false.
    + intros Hstored. apply JsMap_has_app_l, Hc'.
      destruct dm as [md|]; [|done]. apply JsMap_has_true in Hstored.
      rewrite JsMap_get_set_ne in Hstored by done. by apply JsMap_has_true.
  - intros r c' H. exact H.
Qed.

Lemma addModule_registry_valid metatype scope c :
  registry_valid c → registry_valid (addModule metatype scope c).2.
Proof.
  apply (addModule_preserves registry_valid).
  - intros type dm scope' c' Hc' Hfresh token r.
    rewrite registered_modules_fresh, registered_heap by done.
    intros [Hin|Hin]%elem_of_app.
    + destruct (Hc' _ _ Hin) as [m Hm]. exists m. by apply lookup_app_l_Some.
    + apply list_elem_of_singleton in Hin as [= -> ->].
      exists (ModuleRecord.new type scope'). by apply list_lookup_middle.
  - intros r c' H. exact H.
Qed.

(** X4. Registration makes the token usable: after [addModule] on a
    present reference, also when the registration of a nested module
    threw, [addComponent], [addInjectable], [addExportedComponent] and
    [addController] on the token of the reference return normally, as
    long as the addresses in the registry named objects before. *)
Theorem addModule_then_onModule metatype type dm scope c x :
  registry_valid c →
  parts metatype = Some (type, dm) →
  let token := create type scope dm in
  let c' := (addModule metatype scope c).2 in
  (∃ id, (addComponent x token c').1 = Normal id) ∧
  (addInjectable x token c').1 = Normal () ∧
  (addExportedComponent x token c').1 = Normal () ∧
  (addController x token c').1 = Normal ().
Proof.
  intros Hvalid Hparts token c'.
  pose proof (addModule_has_token metatype type dm scope c Hparts) as Hhas.
  apply JsMap_has_true in Hhas as [r Hr].
  destruct (addModule_registry_valid metatype scope c Hvalid _ _
              (JsMap_get_elem _ _ _ Hr)) as [m Hm].
  unfold addComponent, addInjectable, addExportedComponent, addController.
  fold c' in Hr, Hm. fold token in Hr.
  rewrite !(onModule_registered token r m) by done. split; [by eexists|done].
Qed.
End registration_adds.

Lemma get_prefix_Some (token : string) r (m m' : list (string * ModuleRef)) :
  m `prefix_of` m' → JsMap.get token m = Some r → JsMap.get token m' = Some r.
Proof. intros [l ->]. apply JsMap_get_app_l. Qed.

(** The two loops of [addDynamicMetadata] keep what every call of
    [addModule] keeps. *)
Lemma preserved_nested {env : Collaborators} (I : NestContainer → Prop) md scope :
  (∀ x scope', preserves I (addModule x scope')) →
  ∀ c, I c → I (addNested (Some md) scope c).2.
Proof.
  intros Hall. apply preserves_bind; [|intros _];
    rewrite addDynamicModules_unfold; apply preserves_forEach, Forall_forall;
    intros x _; apply Hall.
Qed.

(** ** The global modules *)

Section global_modules.
Context {env : Collaborators}.

Lemma addNested_heap_prefix dm scope c :
  heap c `prefix_of` heap (addNested dm scope c).2.
Proof.
  apply (addNested_preserves (λ c', heap c `prefix_of` heap c')); [|done..].
  intros type dm' scope' c' Hc' _. rewrite registered_heap.
  by apply prefix_app_r.
Qed.

(** A second scheme for invariants of registration, for those that depend
    on which module is added to the global modules: it is the module
    that the call registered, at the address that was the next one when
    the call began, and its type carries the global flag. *)
Section invariant_global.
Context (I : NestContainer → Prop).
Hypothesis I_registered : ∀ type dm scope c,
  I c → JsMap.has (create type scope dm) (container_modules c) = false →
  I (registered type dm scope c).
Hypothesis I_global : ∀ type scope c0 c,
  I c0 → I c →
  heap c !! length (heap c0) = Some (ModuleRecord.new type scope) →
  isGlobalModule type = true →
  I (with_globalModules (JsSet.add (length (heap c0))) c).

Lemma registerModule_preserves_global type dm scope c :
  preserves I (addNested dm (scope ++ [type])) →
  I c → I (addModule
             (match dm with
              | Some md => DynamicModule type md
              | None => StaticType type
              end) scope c).2.
Proof.
  intros Hnested Hc.
  rewrite (addModule_unfold _ type dm) by by destruct dm.
  destruct (JsMap.has _ _) eqn:Hfresh; [done|]. unfold bind.
  set (c1 := registered type dm scope c).
  assert (I c1) as Hc1 by by apply I_registered.
  pose proof (Hnested c1 Hc1) as Hc2.
  pose proof (addNested_heap_prefix dm (scope ++ [type]) c1) as Hprefix.
  destruct (addNested dm (scope ++ [type]) c1) as [[[]|e] c2]; simpl in *;
    [|done].
  destruct (isGlobalModule type) eqn:Hglobal; [|done]. simpl.
  apply (I_global type scope); try done.
  eapply prefix_lookup_Some; [|done]. unfold c1. rewrite registered_heap.
  by apply list_lookup_middle.
Qed.

Lemma addModule_preserves_global metatype :
  ∀ scope, preserves I (addModule metatype scope).
Proof.
  induction metatype as [|type|type md IHmodules IHimports]
    using Metatype_nested_ind; intros scope c Hc.
  - done.
  - apply (registerModule_preserves_global type None); [|done].
    apply preserves_ret.
  - apply (registerModule_preserves_global type (Some md)); [|done].
    apply preserves_bind; [|intros _]; rewrite addDynamicModules_unfold;
      apply preserves_forEach; eapply Forall_impl; eauto.
Qed.
End invariant_global.

(** The global modules that the registration of nested modules adds are
    new objects. *)
Lemma addNested_globals_new dm scope c r :
  r ∈ globalModules (addNested dm scope c).2 →
  r ∈ globalModules c ∨ length (heap c) ≤ r.
Proof.
  cut (heap c `prefix_of` heap (addNested dm scope c).2 ∧
       ∀ r, r ∈ globalModules (addNested dm scope c).2 →
            r ∈ globalModules c ∨ length (heap c) ≤ r).
  { intros [_ Hall]. apply Hall. }
  destruct dm as [md|]; [|split; [done|]; intros r' Hr'; by left].
  apply (preserved_nested (λ c',
    heap c `prefix_of` heap c' ∧
    ∀ r, r ∈ globalModules c' → r ∈ globalModules c ∨ length (heap c) ≤ r)).
  - intros x scope'. apply (addModule_preserves_global (λ c',
      heap c `prefix_of` heap c' ∧
      ∀ r, r ∈ globalModules c' →
           r ∈ globalModules c ∨ length (heap c) ≤ r)).
    + intros type' dm' scope'' c3 [Hpre Hin] _.
      rewrite registered_heap, registered_globalModules_eq.
      split; [by apply prefix_app_r|done].
    + intros type' scope'' c0 c3 [Hpre0 _] [Hpre Hin] _ _.
      split; [done|]. intros r'. simpl. rewrite JsSet_elem_of_add.
      intros [->|Hr']; [|by apply Hin]. right. by apply prefix_length.
  - split; [done|]. intros r' Hr'. by left.
Qed.

(** X5. Global means flagged. When every global module is a module whose
    type carries the global flag, that is so after [addModule], however
    it ends. When [addModule] registers a module at an address that is
    not among the global modules and returns normally, the module is
    among the global modules afterwards exactly when its type carries
    the flag. *)
Theorem addModule_globals_flagged metatype scope c :
  (globals_flagged c → globals_flagged (addModule metatype scope c).2) ∧
  ∀ type dm c',
    parts metatype = Some (type, dm) →
    JsMap.has (create type scope dm) (container_modules c) = false →
    length (heap c) ∉ globalModules c →
    addModule metatype scope c = (Normal (), c') →
    (length (heap c) ∈ globalModules c' ↔ isGlobalModule type = true).
Proof.
  split.
  { apply (addModule_preserves_global globals_flagged).
    - intros type dm scope' c' Hc' _ r. rewrite registered_globalModules_eq,
        registered_heap.
      intros Hr. destruct (Hc' r Hr) as (m & Hm & Hglobal). exists m.
      split; [by apply lookup_app_l_Some|done].
    - intros type scope' c0 c' _ Hc' Hnew Hglobal r. simpl.
      rewrite JsSet_elem_of_add. intros [->|Hr]; [|by apply Hc'].
      by exists (ModuleRecord.new type scope'). }
  intros type dm c' Hparts Hfresh Hnot Hrun.
  rewrite (addModule_unfold _ _ _ _ _ Hparts), Hfresh in Hrun.
  apply bind_normal in Hrun as ([] & c2 & Hnested & Hglobal).
  pose proof (addNested_globals_new dm (scope ++ [type])
                (registered type dm scope c) (length (heap c))) as Hnew.
  rewrite Hnested in Hnew. cbn [snd] in Hnew.
  rewrite registered_globalModules_eq, registered_heap, length_app in Hnew.
  simpl in Hnew. split.
  - intros Hin. destruct (isGlobalModule type) eqn:Htype; [done|].
    injection Hglobal as Heq. subst c'.
    destruct (Hnew Hin) as [?|?]; [done|lia].
  - intros Htype. rewrite Htype in Hglobal. injection Hglobal as Heq.
    subst c'. simpl. apply JsSet_elem_of_add. by left.
Qed.

(** X6. A registration that throws does not make the module global. When
    [addModule] registers a module and the registration of one of its
    nested modules throws, the module stays in the registry, at the
    address that was the next one, but is not among the global modules,
    whatever flag its type carries: line 58 is not reached. *)
Theorem addModule_throw_not_global metatype type dm scope c e c' :
  parts metatype = Some (type, dm) →
  JsMap.has (create type scope dm) (container_modules c) = false →
  length (heap c) ∉ globalModules c →
  addModule metatype scope c = (Throw e, c') →
  JsMap.get (create type scope dm) (container_modules c') =
    Some (length (heap c)) ∧
  heap c' !! length (heap c) = Some (ModuleRecord.new type scope) ∧
  length (heap c) ∉ globalModules c'.
Proof.
  intros Hparts Hfresh Hnot Hrun.
  rewrite (addModule_unfold _ _ _ _ _ Hparts), Hfresh in Hrun.
  set (c1 := registered type dm scope c) in *.
  apply bind_throw in Hrun as [Hrun|(a & c2 & _ & Hrun)];
    [|by destruct (isGlobalModule type)].
  pose proof (addNested_registry_prefix dm (scope ++ [type]) c1) as Hmodules.
  pose proof (addNested_heap_prefix dm (scope ++ [type]) c1) as Hheap.
  assert (∀ r, r ∈ globalModules (addNested dm (scope ++ [type]) c1).2 →
               r ∈ globalModules c ∨ length (heap c1) ≤ r) as Hglobals.
  { cut (heap c1 `prefix_of` heap (addNested dm (scope ++ [type]) c1).2 ∧
         ∀ r, r ∈ globalModules (addNested dm (scope ++ [type]) c1).2 →
              r ∈ globalModules c ∨ length (heap c1) ≤ r); [by intros []|].
    destruct dm as [md|]; [|split; [done|]; intros r Hr; by left].
    apply (preserved_nested (λ c',
      heap c1 `prefix_of` heap c' ∧
      ∀ r, r ∈ globalModules c' →
           r ∈ globalModules c ∨ length (heap c1) ≤ r)).
    - intros x scope'. apply (addModule_preserves_global (λ c',
        heap c1 `prefix_of` heap c' ∧
        ∀ r, r ∈ globalModules c' →
             r ∈ globalModules c ∨ length (heap c1) ≤ r)).
      + intros type' dm' scope'' c3 [Hpre Hin] _.
        rewrite registered_heap, registered_globalModules_eq.
        split; [by apply prefix_app_r|done].
      + intros type' scope'' c0 c3 [Hpre0 _] [Hpre Hin] _ _.
        split; [done|]. intros r. simpl. rewrite JsSet_elem_of_add.
        intros [->|Hr]; [|by apply Hin]. right. by apply prefix_length.
    - split; [done|]. intros r Hr. left.
      unfold c1 in Hr. by rewrite registered_globalModules_eq in Hr. }
  rewrite Hrun in Hmodules, Hheap, Hglobals. simpl in *.
  split; [|split].
  - eapply (get_prefix_Some _ _ _ _ Hmodules). unfold c1.
    rewrite registered_modules_fresh by done.
    rewrite JsMap_get_app_r; [simpl; by rewrite decide_True|].
    apply JsMap_get_None. by apply JsMap_has_false.
  - eapply prefix_lookup_Some; [|done]. unfold c1. rewrite registered_heap.
    by apply list_lookup_middle.
  - intros Hin. destruct (Hglobals _ Hin) as [?|Hle]; [done|].
    unfold c1 in Hle. rewrite registered_heap, length_app in Hle.
    simpl in Hle. lia.
Qed.
End global_modules.

(** ** Binding twice, and binding nothing *)

Lemma addRelatedModule_member g m :
  g ∈ ModuleRecord.relatedModules m →
  ModuleRecord.addRelatedModule (Some g) m = m.
Proof.
  intros Hg. destruct m as [type scope related ? ? ? ?]. simpl in *.
  unfold JsSet.add. by rewrite decide_True.
Qed.

Lemma with_heap_insert_id r m c :
  heap c !! r = Some m → with_heap (λ h, <[r := m]> h) c = c.
Proof.
  intros Hm. unfold with_heap. rewrite list_insert_id by done. by destruct c.
Qed.

Lemma forEach_bindGlobalModuleToModule_bound module globals : ∀ c,
  (∀ g, g ∈ globals → module ≠ g →
        ∃ m, heap c !! module = Some m ∧ g ∈ ModuleRecord.relatedModules m) →
  forEach (λ globalModule, bindGlobalModuleToModule module globalModule)
    globals c = (Normal (), c).
Proof.
  induction globals as [|g globals IH]; intros c Hbound; simpl; [done|].
  unfold bind. assert (bindGlobalModuleToModule module g c = (Normal (), c))
    as ->.
  { unfold bindGlobalModuleToModule.
    destruct (decide (module = g)) as [|Hne]; [done|].
    destruct (Hbound g (list_elem_of_here _ _) Hne) as (m & Hm & Hg).
    rewrite (invoke_registered module m) by done. unfold void.
    cbn [fst snd]. rewrite addRelatedModule_member by done.
    by rewrite with_heap_insert_id. }
  apply IH. intros g' Hg'. apply Hbound. by apply list_elem_of_further.
Qed.

Lemma forEach_bindGlobalsToRelatedModules_bound modules : ∀ c,
  (∀ r g, r ∈ modules → g ∈ globalModules c → r ≠ g →
          ∃ m, heap c !! r = Some m ∧ g ∈ ModuleRecord.relatedModules m) →
  forEach bindGlobalsToRelatedModules modules c = (Normal (), c).
Proof.
  induction modules as [|r modules IH]; intros c Hbound; simpl; [done|].
  unfold bind. assert (bindGlobalsToRelatedModules r c = (Normal (), c)) as ->.
  { unfold bindGlobalsToRelatedModules, bind, gets.
    apply forEach_bindGlobalModuleToModule_bound. intros g Hg.
    apply Hbound; [apply list_elem_of_here|done]. }
  apply IH. intros r' g Hr'. apply Hbound. by apply list_elem_of_further.
Qed.

(** X7. Binding twice is binding once: when the addresses in the
    registry name objects, [bindGlobalScope] on the container that
    [bindGlobalScope] left returns normally and changes nothing. *)
Theorem bindGlobalScope_idempotent c :
  registry_valid c →
  bindGlobalScope (bindGlobalScope c).2 = (Normal (), (bindGlobalScope c).2).
Proof.
  intros Hvalid.
  destruct (forEach_bindGlobalsToRelatedModules_grows
              (JsMap.values (container_modules c)) c)
    as (c' & Hrun & Hgrows).
  { intros r [[token r'] [-> Hin]]%list_elem_of_fmap. by eapply Hvalid. }
  assert (bindGlobalScope c = (Normal (), c')) as -> by exact Hrun. simpl.
  unfold bindGlobalScope, bind, gets.
  apply forEach_bindGlobalsToRelatedModules_bound. intros r g Hr Hg Hne.
  pose proof Hgrows as (Hmodules & Hglobals & _ & _ & Hheap).
  rewrite Hmodules in Hr. rewrite Hglobals in Hg.
  assert (is_Some (heap c' !! r)) as [m' Hm'].
  { eapply grows_is_Some; [done|].
    apply list_elem_of_fmap in Hr as [[token r'] [-> Hin]]. by eapply Hvalid. }
  exists m'. split; [done|].
  destruct (Hheap _ _ Hm') as (m & _ & _ & Hrel). apply Hrel. right.
  split; [done|]. by split.
Qed.

(** X8. Nothing to bind: without global modules, and also without
    registered modules (as after [clear], which keeps the global
    modules), [bindGlobalScope] returns normally and changes nothing. *)
Theorem bindGlobalScope_nothing c :
  globalModules c = [] ∨ container_modules c = [] →
  bindGlobalScope c = (Normal (), c).
Proof.
  intros Hempty. unfold bindGlobalScope, bind, gets.
  apply forEach_bindGlobalsToRelatedModules_bound. intros r g Hr Hg _.
  destruct Hempty as [Hnone|Hnone]; rewrite Hnone in *;
    by apply elem_of_nil in Hr || by apply elem_of_nil in Hg.
Qed.

(** ** Direct calls of [addDynamicMetadata] and [addDynamicModules] *)

Section dynamic_metadata.
Context {env : Collaborators}.

(** X9. Store and read back. [addDynamicMetadata] with metadata for a
    token that is in the registry replaces what was stored under the
    token, and whatever the registration of the nested modules does and
    however it ends, the metadata is stored under the token afterwards:
    [getDynamicMetadataByToken] returns its fields. *)
Theorem addDynamicMetadata_stored token md scope c :
  JsMap.has token (container_modules c) = true →
  let c' := (addDynamicMetadata token (Some md) scope c).2 in
  JsMap.get token (dynamicModulesMetadata c') = Some md ∧
  ∀ metadataKey,
    getDynamicMetadataByToken token metadataKey c' =
      (Normal (default [] (field metadataKey md)), c').
Proof.
  intros Hhas c'.
  assert (JsMap.get token (dynamicModulesMetadata c') = Some md) as Hget.
  { cut (JsMap.has token (container_modules c') = true ∧
         JsMap.get token (dynamicModulesMetadata c') = Some md);
      [by intros []|].
    unfold c', addDynamicMetadata, addDynamicMetadata_, bind, update.
    apply (preserved_nested
      (λ c', JsMap.has token (container_modules c') = true ∧
             JsMap.get token (dynamicModulesMetadata c') = Some md)).
    - intros x scope'. apply addModule_preserves.
      + intros type' dm' scope'' c3 [Hhas' Hget'] Hfresh'. split.
        * rewrite registered_modules_fresh by done. by apply JsMap_has_app_l.
        * rewrite registered_dynamicModulesMetadata.
          destruct dm' as [md'|]; [|done].
          rewrite JsMap_get_set_ne; [done|]. intros Heq.
          rewrite Heq in Hfresh'. congruence.
      + done.
    - split; [done|]. simpl. apply JsMap_get_set_eq. }
  split; [done|]. intros metadataKey.
  unfold getDynamicMetadataByToken, bind, gets. rewrite Hget.
  by destruct (field metadataKey md).
Qed.

(** X10. An absent entry ends the loop. When the entries of a list in
    front of an absent entry hold no absent reference,
    [addDynamicModules] registers them, throws [InvalidModuleException]
    with its scope at the absent entry and does not reach the entries
    behind it: the container is the one the entries in front left. *)
Theorem addDynamicModules_abort front behind scope c :
  Forall (λ x, has_absent x = false) front →
  addDynamicModules (Some (front ++ Absent :: behind)) scope c =
    (Throw (InvalidModuleException scope),
     (addDynamicModules (Some front) scope c).2).
Proof.
  intros Hfront. rewrite !addDynamicModules_unfold. simpl.
  rewrite forEach_app. unfold bind.
  assert ((forEach (λ module, addModule module scope) front c).1 = Normal ())
    as Hnormal.
  { apply forEach_normal. intros x c' Hx. apply addModule_normal.
    by eapply Forall_forall in Hfront. }
  by destruct (forEach _ front c) as [[[]|e] c1].
Qed.
End dynamic_metadata.

(** ** Linking what was registered *)

Section linking.
Context {env : Collaborators}.

Lemma addRelatedModule_registered relatedModule type dm token owner m c :
  parts relatedModule = Some (type, dm) →
  JsMap.get token (container_modules c) = Some owner →
  heap c !! owner = Some m →
  addRelatedModule relatedModule token c =
    (Normal (),
     with_heap
       (λ h, <[owner := ModuleRecord.addRelatedModule
                  (JsMap.get
                     (create type
                        (ModuleRecord.scope m ++ [ModuleRecord.metatype m]) dm)
                     (container_modules c)) m]> h) c).
Proof.
  intros Hparts Howner Hm. unfold addRelatedModule, bind, gets.
  assert (JsMap.has token (container_modules c) = true) as ->.
  { apply JsMap_has_true. by eexists. }
  simpl. rewrite Howner, (read_registered owner m) by done.
  destruct relatedModule as [|type'|type' md]; [done|..];
    injection Hparts as <- <-; simpl;
    rewrite (read_registered owner m) by done;
    by rewrite (invoke_registered owner m).
Qed.

(** X11. Registered the way it is looked up. After [addModule] has
    registered a dynamic module in a scope and returned normally,
    [addRelatedModule] with a reference from the [modules] or [imports]
    of the module and the token of the module returns normally and finds
    the module that the recursion registered for the reference: its
    address is among the related modules of the dynamic module
    afterwards. *)
Theorem addModule_then_addRelatedModule type md scope c c' x :
  JsMap.has (create type scope (Some md)) (container_modules c) = false →
  addModule (DynamicModule type md) scope c = (Normal (), c') →
  x ∈ nested md →
  ∃ type' dm' r c'' m,
    parts x = Some (type', dm') ∧
    JsMap.get (create type' (scope ++ [type]) dm') (container_modules c') =
      Some r ∧
    addRelatedModule x (create type scope (Some md)) c' = (Normal (), c'') ∧
    heap c'' !! length (heap c) = Some m ∧
    r ∈ ModuleRecord.relatedModules m.
Proof.
  intros Hfresh Hrun Hx.
  rewrite (addModule_unfold _ type (Some md)), Hfresh in Hrun by done.
  apply bind_normal in Hrun as ([] & c2 & Hnested & Hglobal).
  set (token := create type scope (Some md)) in *.
  set (c1 := registered type (Some md) scope c) in *.
  assert (container_modules c' = container_modules c2 ∧ heap c' = heap c2)
    as [Hmodules Hheap].
  { destruct (isGlobalModule type); by injection Hglobal as <-. }
  pose proof (addNested_registry_prefix (Some md) (scope ++ [type]) c1)
    as Hprefix.
  pose proof (addNested_heap_prefix (Some md) (scope ++ [type]) c1)
    as Hprefix'.
  rewrite Hnested in Hprefix, Hprefix'. cbn [snd] in Hprefix, Hprefix'.
  assert (JsMap.get token (container_modules c') = Some (length (heap c)))
    as Howner.
  { rewrite Hmodules. apply (get_prefix_Some _ _ _ _ Hprefix). unfold c1.
    rewrite registered_modules_fresh by done.
    rewrite JsMap_get_app_r; [simpl; by rewrite decide_True|].
    apply JsMap_get_None. by apply JsMap_has_false. }
  assert (heap c' !! length (heap c) = Some (ModuleRecord.new type scope))
    as Hrecord.
  { rewrite Hheap. apply (prefix_lookup_Some (heap c1)); [|exact Hprefix'].
    unfold c1. rewrite registered_heap. by apply list_lookup_middle. }
  rewrite addNested_unfold in Hnested.
  destruct (forEach_addModule_registered _ _ _ _ Hnested x Hx)
    as (type' & dm' & Hparts & Hhas).
  rewrite <- Hmodules in Hhas. apply JsMap_has_true in Hhas as [r Hr].
  exists type', dm', r. eexists. eexists.
  split; [done|]. split; [done|]. split.
  { by apply (addRelatedModule_registered x type' dm' token
                (length (heap c)) (ModuleRecord.new type scope)). }
  simpl. split.
  - apply list_lookup_insert_eq. by eapply lookup_lt_Some.
  - simpl in *. rewrite Hr. simpl. apply JsSet_elem_of_add. by left.
Qed.
End linking.

(** ** Where the exception comes from *)

Section absent_scopes.
Context {env : Collaborators}.

(** X12. The scope in the exception. When [addModule] throws, the
    exception is an [InvalidModuleException] whose scope is one in which
    an absent reference stands: the scope of the call when the reference
    itself is absent, and otherwise the scope of the call extended by
    the types of the dynamic modules on the way down to an absent
    entry. *)
Theorem addModule_throw_scope metatype :
  ∀ scope c e c', addModule metatype scope c = (Throw e, c') →
    ∃ scope', e = InvalidModuleException scope' ∧
              scope' ∈ absent_scopes metatype scope.
Proof.
  induction metatype as [|type|type md IHmodules IHimports]
    using Metatype_nested_ind; intros scope c e c'.
  - intros [= <- <-]. exists scope. split; [done|]. apply list_elem_of_here.
  - rewrite (addModule_unfold _ type None) by done.
    destruct (JsMap.has _ _); [done|]. unfold bind. simpl.
    by destruct (isGlobalModule type).
  - rewrite (addModule_unfold _ type (Some md)) by done.
    destruct (JsMap.has _ _); [done|].
    intros [Hthrow|(a & c1 & _ & Hthrow)]%bind_throw;
      [|by destruct (isGlobalModule type)].
    rewrite addNested_unfold in Hthrow.
    apply forEach_throw in Hthrow as (x & c1 & c2 & Hx & Hthrow).
    assert (∃ scope', e = InvalidModuleException scope' ∧
                      scope' ∈ absent_scopes x (scope ++ [type]))
      as (scope' & -> & Hscope).
    { pose proof Hx as Hx'. unfold nested in Hx'.
      apply elem_of_app in Hx' as [Hx'|Hx'];
        [eapply Forall_forall in IHmodules|eapply Forall_forall in IHimports];
        eauto. }
    exists scope'. split; [done|]. by eapply absent_scopes_nested.
Qed.
End absent_scopes.

(** ** Across all calls *)

Lemma preserves_throw {A} I e : preserves I (throw (A:=A) e).
Proof. by intros c Hc. Qed.

Lemma preserves_read {A} I module (field : ModuleRecord.t → A) :
  preserves I (read module field).
Proof. intros c Hc. unfold read. by destruct (deref module c) as [[??]|]. Qed.

Lemma preserves_extractMetadata I metatype :
  preserves I (extractMetadata metatype).
Proof. intros c Hc. by destruct metatype. Qed.

Section across_calls.
Context {env : Collaborators}.

(** What holds of a container and is kept when a module is registered,
    when the global modules or the stored metadata change, and when a
    record is replaced by one of the same type and scope, is kept by
    every call but [clear]. *)
Section invariant_calls.
Context (I : NestContainer → Prop).
Hypothesis I_registered : ∀ type dm scope c,
  I c → JsMap.has (create type scope dm) (container_modules c) = false →
  I (registered type dm scope c).
Hypothesis I_globalModules : ∀ f c, I c → I (with_globalModules f c).
Hypothesis I_metadata : ∀ f c, I c → I (with_dynamicModulesMetadata f c).
Hypothesis I_record : ∀ r m m' c,
  I c → heap c !! r = Some m →
  ModuleRecord.metatype m' = ModuleRecord.metatype m →
  ModuleRecord.scope m' = ModuleRecord.scope m →
  I (with_heap (λ h, <[r := m']> h) c).

Lemma invoke_preserves {A} module
    (method : ModuleRecord.t → A * ModuleRecord.t) :
  (∀ m, ModuleRecord.metatype (method m).2 = ModuleRecord.metatype m ∧
        ModuleRecord.scope (method m).2 = ModuleRecord.scope m) →
  preserves I (invoke module method).
Proof.
  intros Hmethod c Hc. unfold invoke.
  destruct (deref module c) as [[r m]|] eqn:Hderef; [|done].
  apply deref_Some in Hderef as [_ Hm]. destruct (Hmethod m) as [? ?].
  by apply (I_record r m).
Qed.

Lemma onModule_preserves {A} token
    (method : ModuleRecord.t → A * ModuleRecord.t) :
  (∀ m, ModuleRecord.metatype (method m).2 = ModuleRecord.metatype m ∧
        ModuleRecord.scope (method m).2 = ModuleRecord.scope m) →
  preserves I (onModule token method).
Proof.
  intros Hmethod. apply preserves_bind; [apply preserves_gets|].
  intros registered. destruct (negb registered); [apply preserves_throw|].
  apply preserves_bind; [apply preserves_gets|]. intros module.
  by apply invoke_preserves.
Qed.

Lemma addRelatedModule_preserves relatedModule token :
  preserves I (addRelatedModule relatedModule token).
Proof.
  apply preserves_bind; [apply preserves_gets|].
  intros registered. destruct (negb registered); [apply preserves_ret|].
  apply preserves_bind; [apply preserves_gets|]. intros module.
  apply preserves_bind; [apply preserves_read|]. intros parent.
  apply preserves_bind; [apply preserves_extractMetadata|]. intros [type dm].
  apply preserves_bind; [apply preserves_read|]. intros scope.
  apply preserves_bind; [apply preserves_gets|]. intros related.
  apply invoke_preserves. intros m. by destruct related.
Qed.

Lemma bindGlobalModuleToModule_preserves module globalModule :
  preserves I (bindGlobalModuleToModule module globalModule).
Proof.
  unfold bindGlobalModuleToModule.
  destruct (decide (module = globalModule)); [apply preserves_ret|].
  by apply invoke_preserves.
Qed.

Lemma addDynamicMetadata_preserves token dm scope :
  preserves I (addDynamicMetadata token dm scope).
Proof.
  destruct dm as [md|]; [|apply preserves_ret].
  apply preserves_bind; [apply preserves_update; auto|].
  intros _. apply preserves_bind; [|intros _];
    apply addDynamicModules_preserves; auto.
Qed.

Lemma after_preserves call c : call ≠ Clear → I c → I (after call c).
Proof.
  intros Hcall Hc. destruct call; simpl.
  - by apply addModule_preserves; auto.
  - by apply addDynamicMetadata_preserves.
  - by apply addDynamicModules_preserves; auto.
  - by apply I_globalModules.
  - by apply addRelatedModule_preserves.
  - by apply onModule_preserves.
  - by apply onModule_preserves.
  - by apply onModule_preserves.
  - by apply onModule_preserves.
  - done.
  - apply bindGlobalScope_preserves; [|done].
    apply bindGlobalModuleToModule_preserves.
  - apply bindGlobalsToRelatedModules_preserves; [|done].
    apply bindGlobalModuleToModule_preserves.
  - by apply bindGlobalModuleToModule_preserves.
Qed.
End invariant_calls.

Lemma record_consistent r m m' c :
  registry_consistent c → heap c !! r = Some m →
  ModuleRecord.metatype m' = ModuleRecord.metatype m →
  ModuleRecord.scope m' = ModuleRecord.scope m →
  registry_consistent (with_heap (λ h, <[r := m']> h) c).
Proof.
  intros [Hkeys Hvalues Hrecords] Hm Htype Hscope. split; [done..|]. simpl.
  intros token r' Hin. destruct (Hrecords _ _ Hin) as (m0 & Hm0 & dm & Hdm).
  destruct (decide (r = r')) as [<-|Hne].
  - exists m'. split.
    + apply list_lookup_insert_eq. by eapply lookup_lt_Some.
    + exists dm. rewrite Htype, Hscope.
      pose proof (eq_trans (eq_sym Hm0) Hm) as Heq. by injection Heq as ->.
  - exists m0. split; [by rewrite list_lookup_insert_ne|by exists dm].
Qed.

(** X13. The registry and the heap agree in every container a client can
    bring about from a new one, by any calls in any order and however
    they end: no token has two entries, no module object is registered
    under two tokens, and the record behind an entry carries a type and a
    scope from which the token of the entry was computed. *)
Theorem reachable_consistent c : reachable c → registry_consistent c.
Proof.
  induction 1 as [|call c Hreach IH]; [apply empty_container_consistent|].
  assert (call = Clear ∨ call ≠ Clear) as [->|Hcall]
    by (destruct call; (by left) || (by right)).
  - split; [apply NoDup_nil_2..|]. intros token r Hin.
    by apply elem_of_nil in Hin.
  - apply (after_preserves registry_consistent); try done.
    + intros. by apply registered_consistent.
    + by intros f c' [].
    + by intros f c' [].
    + intros. by eapply record_consistent.
Qed.

(** X14. A token keeps its module. No call but [clear] removes an entry
    from the registry or puts another module under its token: what
    [modules.get(token)] finds before the call it finds after it,
    however the call ends. *)
Theorem registered_stays call token r c :
  call ≠ Clear →
  JsMap.get token (container_modules c) = Some r →
  JsMap.get token (container_modules (after call c)) = Some r.
Proof.
  intros Hcall.
  apply (after_preserves
           (λ c', JsMap.get token (container_modules c') = Some r));
    try done.
  intros type dm scope c' Hget Hfresh.
  rewrite registered_modules_fresh by done. by apply JsMap_get_app_l.
Qed.

(** X15. After [clear], a module that was registered is registered anew.
    [addModule] on a present reference whose token had an entry before
    [clear] makes a new record at the next address and enters it under
    the token, however the registration of nested modules ends; the
    record of the old entry is still in the heap, and when it was among
    the global modules it still is, beside the new one. *)
Theorem clear_then_addModule metatype type dm scope r c :
  parts metatype = Some (type, dm) →
  registry_valid c →
  JsMap.get (create type scope dm) (container_modules c) = Some r →
  let c' := (addModule metatype scope (clear c).2).2 in
  JsMap.get (create type scope dm) (container_modules c') =
    Some (length (heap c)) ∧
  r ≠ length (heap c) ∧
  heap c' !! length (heap c) = Some (ModuleRecord.new type scope) ∧
  heap c' !! r = heap c !! r ∧
  (r ∈ globalModules c → r ∈ globalModules c').
Proof.
  intros Hparts Hvalid Hr c'.
  destruct (Hvalid _ _ (JsMap_get_elem _ _ _ Hr)) as [m Hm].
  pose proof (lookup_lt_Some _ _ _ Hm) as Hlt.
  set (c0 := (clear c).2) in *.
  destruct (addModule_keeps metatype scope c0) as [Hheap Hglobals].
  fold c' in Hheap, Hglobals.
  assert (heap c' !! length (heap c) = Some (ModuleRecord.new type scope) ∧
          JsMap.get (create type scope dm) (container_modules c') =
            Some (length (heap c))) as [Hnew Hentry].
  { unfold c'. rewrite (addModule_unfold _ _ _ _ _ Hparts). simpl.
    set (c1 := registered type dm scope c0).
    pose proof (addNested_heap_prefix dm (scope ++ [type]) c1) as Hh.
    pose proof (addNested_registry_prefix dm (scope ++ [type]) c1) as Hm'.
    assert (heap c1 !! length (heap c) = Some (ModuleRecord.new type scope))
      as Hh1.
    { unfold c1. rewrite registered_heap. by apply list_lookup_middle. }
    assert (JsMap.get (create type scope dm) (container_modules c1) =
              Some (length (heap c))) as Hm1.
    { unfold c1. rewrite registered_modules. simpl. by rewrite decide_True. }
    unfold bind.
    destruct (addNested dm (scope ++ [type]) c1) as [[[]|e] c2];
      cbn [snd] in *.
    - assert (heap c2 !! length (heap c) = Some (ModuleRecord.new type scope) ∧
              JsMap.get (create type scope dm) (container_modules c2) =
                Some (length (heap c))) as [? ?].
      { split; [by apply (prefix_lookup_Some (heap c1))|].
        by apply (get_prefix_Some _ _ _ _ Hm'). }
      by destruct (isGlobalModule type).
    - split; [by apply (prefix_lookup_Some (heap c1))|].
      by apply (get_prefix_Some _ _ _ _ Hm'). }
  split; [done|]. split; [lia|]. split; [done|]. split.
  - rewrite Hm. by apply (prefix_lookup_Some (heap c0)).
  - intros Hin. destruct Hglobals as [l ->]. apply elem_of_app. by left.
Qed.
End across_calls.

(** ** Witnesses of the further properties, on the sample collaborators *)

Lemma empty_container_valid : registry_valid empty_container.
Proof. intros token r Hin. by apply elem_of_nil in Hin. Qed.

Lemma sample_container_run :
  addModule (env:=sample) sample_dynamic [] empty_container =
    (Normal (), sample_container).
Proof. vm_compute. reflexivity. Qed.

Lemma sample_token_entry :
  JsMap.get sample_token (container_modules sample_container) = Some 0.
Proof. vm_compute. reflexivity. Qed.

Lemma addModule_metadata_registered_witness :
  metadata_registered empty_container ∧ metadata_registered sample_container.
Proof.
  assert (metadata_registered empty_container) as Hempty
    by (intros token; discriminate).
  split; [exact Hempty|].
  exact (addModule_metadata_registered (env:=sample) sample_dynamic []
           empty_container Hempty).
Defined.

Lemma addModule_then_onModule_witness :
  registry_valid empty_container ∧
  (addInjectable "Service" sample_token sample_container).1 = Normal ().
Proof.
  split; [exact empty_container_valid|].
  destruct (addModule_then_onModule (env:=sample) sample_dynamic "DynModule"
              (Some sample_metadata) [] empty_container "Service"
              empty_container_valid eq_refl) as (_ & Hinjectable & _).
  exact Hinjectable.
Defined.

Lemma addModule_globals_flagged_witness :
  globals_flagged (env:=sample) empty_container ∧
  globals_flagged (env:=sample) sample_container ∧
  (length (heap empty_container) ∉ globalModules empty_container) ∧
  (length (heap empty_container) ∈ globalModules sample_container ↔
   isGlobalModule (env:=sample) "DynModule" = true).
Proof.
  assert (globals_flagged (env:=sample) empty_container) as Hempty.
  { intros r Hr. by apply elem_of_nil in Hr. }
  destruct (addModule_globals_flagged (env:=sample) sample_dynamic []
              empty_container) as [Hafter Hiff].
  split; [exact Hempty|]. split; [exact (Hafter Hempty)|].
  split; [exact (not_elem_of_nil 0)|].
  exact (Hiff "DynModule" (Some sample_metadata) sample_container eq_refl
           eq_refl (not_elem_of_nil 0) sample_container_run).
Defined.

Lemma addModule_throw_not_global_witness :
  isGlobalModule (env:=sample) "GlobalModule" = true ∧
  ∃ c', addModule (env:=sample) sample_global_broken [] empty_container =
          (Throw (InvalidModuleException ["GlobalModule"]), c') ∧
        heap c' !! 0 = Some (ModuleRecord.new "GlobalModule" []) ∧
        0 ∉ globalModules c'.
Proof.
  split; [reflexivity|].
  assert (addModule (env:=sample) sample_global_broken [] empty_container =
            (Throw (InvalidModuleException ["GlobalModule"]),
             (addModule (env:=sample) sample_global_broken []
                empty_container).2)) as Hrun
    by (vm_compute; reflexivity).
  destruct (addModule_throw_not_global (env:=sample) sample_global_broken
              "GlobalModule" _ [] empty_container _ _ eq_refl eq_refl
              (not_elem_of_nil 0) Hrun) as (_ & Hrecord & Hglobal).
  eexists. split; [exact Hrun|]. split; [exact Hrecord|exact Hglobal].
Defined.

Lemma bindGlobalScope_idempotent_witness :
  registry_valid sample_container ∧
  bindGlobalScope (bindGlobalScope sample_container).2 =
    (Normal (), (bindGlobalScope sample_container).2).
Proof.
  split; [exact sample_container_valid|].
  exact (bindGlobalScope_idempotent sample_container sample_container_valid).
Defined.

Lemma bindGlobalScope_nothing_witness :
  container_modules (clear sample_container).2 = [] ∧
  globalModules (clear sample_container).2 = [2] ∧
  bindGlobalScope (clear sample_container).2 =
    (Normal (), (clear sample_container).2).
Proof.
  split; [reflexivity|]. split; [vm_compute; reflexivity|].
  apply (bindGlobalScope_nothing (clear sample_container).2).
  right. reflexivity.
Defined.

Lemma addDynamicMetadata_stored_witness :
  JsMap.has sample_token (container_modules sample_container) = true ∧
  JsMap.get sample_token
    (dynamicModulesMetadata
       (addDynamicMetadata (env:=sample) sample_token
          (Some (dynamicMetadata_broken)) ["Root"] sample_container).2) =
    Some dynamicMetadata_broken.
Proof.
  assert (JsMap.has sample_token (container_modules sample_container) = true)
    as Hhas by (vm_compute; reflexivity).
  split; [exact Hhas|].
  destruct (addDynamicMetadata_stored (env:=sample) sample_token
              dynamicMetadata_broken ["Root"] sample_container Hhas)
    as [Hstored _].
  exact Hstored.
Defined.

Lemma addDynamicModules_abort_witness :
  Forall (λ x, has_absent x = false) [StaticType "OtherModule"] ∧
  addDynamicModules (env:=sample)
    (Some ([StaticType "OtherModule"] ++ Absent :: [StaticType "Unreached"]))
    ["Root"] empty_container =
    (Throw (InvalidModuleException ["Root"]),
     (addDynamicModules (env:=sample) (Some [StaticType "OtherModule"])
        ["Root"] empty_container).2).
Proof.
  assert (Forall (λ x, has_absent x = false) [StaticType "OtherModule"])
    as Hfront by (constructor; [reflexivity|constructor]).
  split; [exact Hfront|].
  exact (addDynamicModules_abort (env:=sample) [StaticType "OtherModule"]
           [StaticType "Unreached"] ["Root"] empty_container Hfront).
Defined.

Lemma addModule_then_addRelatedModule_witness :
  JsMap.has sample_token (container_modules empty_container) = false ∧
  StaticType "OtherModule" ∈ nested sample_metadata ∧
  ∃ r c'' m,
    addRelatedModule (env:=sample) (StaticType "OtherModule") sample_token
      sample_container = (Normal (), c'') ∧
    heap c'' !! 0 = Some m ∧ r ∈ ModuleRecord.relatedModules m.
Proof.
  assert (StaticType "OtherModule" ∈ nested sample_metadata) as Hnested
    by apply list_elem_of_here.
  split; [reflexivity|]. split; [exact Hnested|].
  destruct (addModule_then_addRelatedModule (env:=sample) "DynModule"
              sample_metadata [] empty_container sample_container
              (StaticType "OtherModule") eq_refl sample_container_run Hnested)
    as (type' & dm' & r & c'' & m & _ & _ & Hrun & Hm & Hr).
  exists r, c'', m. split; [exact Hrun|]. split; [exact Hm|exact Hr].
Defined.

Lemma addModule_throw_scope_witness :
  ∃ c', addModule (env:=sample) sample_broken [] empty_container =
          (Throw (InvalidModuleException ["DynModule"]), c') ∧
        ∃ scope', InvalidModuleException ["DynModule"] =
                    InvalidModuleException scope' ∧
                  scope' ∈ absent_scopes sample_broken [].
Proof.
  assert (addModule (env:=sample) sample_broken [] empty_container =
            (Throw (InvalidModuleException ["DynModule"]),
             (addModule (env:=sample) sample_broken [] empty_container).2))
    as Hrun by (vm_compute; reflexivity).
  eexists. split; [exact Hrun|].
  exact (addModule_throw_scope (env:=sample) sample_broken [] empty_container
           _ _ Hrun).
Defined.

Lemma reachable_consistent_witness :
  reachable (env:=sample)
    (after (env:=sample) (AddRelatedModule (StaticType "OtherModule")
                            sample_token)
       (after (env:=sample) (AddModule sample_dynamic []) empty_container)) ∧
  registry_consistent (env:=sample)
    (after (env:=sample) (AddRelatedModule (StaticType "OtherModule")
                            sample_token)
       (after (env:=sample) (AddModule sample_dynamic []) empty_container)).
Proof.
  assert (reachable (env:=sample)
    (after (env:=sample) (AddRelatedModule (StaticType "OtherModule")
                            sample_token)
       (after (env:=sample) (AddModule sample_dynamic []) empty_container)))
    as Hreachable
    by apply reachable_call, reachable_call, reachable_new.
  split; [exact Hreachable|].
  exact (reachable_consistent (env:=sample) _ Hreachable).
Defined.

Lemma registered_stays_witness :
  BindGlobalScope ≠ Clear ∧
  JsMap.get sample_token (container_modules sample_container) = Some 0 ∧
  JsMap.get sample_token
    (container_modules (after (env:=sample) BindGlobalScope sample_container))
    = Some 0.
Proof.
  assert (BindGlobalScope ≠ Clear) as Hcall by discriminate.
  split; [exact Hcall|]. split; [exact sample_token_entry|].
  exact (registered_stays (env:=sample) BindGlobalScope sample_token 0
           sample_container Hcall sample_token_entry).
Defined.

Lemma clear_then_addModule_witness :
  registry_valid sample_container ∧
  JsMap.get sample_token (container_modules sample_container) = Some 0 ∧
  JsMap.get sample_token
    (container_modules
       (addModule (env:=sample) sample_dynamic [] (clear sample_container).2).2)
    = Some (length (heap sample_container)) ∧
  0 ≠ length (heap sample_container).
Proof.
  split; [exact sample_container_valid|]. split; [exact sample_token_entry|].
  destruct (clear_then_addModule (env:=sample) sample_dynamic "DynModule"
              (Some sample_metadata) [] 0 sample_container eq_refl
              sample_container_valid sample_token_entry)
    as (Hentry & Hne & _).
  split; [exact Hentry|exact Hne].
Defined.
